(** * Collager: a shallow embedding of [collager.py]

    The development follows the single source file of the repository, the
    class [Collager]:

    - [get_files], [get_aspect_ratios], [update_path]: building the catalog;
    - [center_crop]: the cropper;
    - [create_line]: the line packer (rejection sampling, ratio correction,
      compositing);
    - [collage]: the assembler.

    Conventions of the embedding.

    - Python [int] is [Z]; Python [float] is idealised as an exact rational
      [Q], so [/] is exact division and the only failure of a division is
      [ZeroDivisionError].
    - A computation that can raise returns a [result]; the two [while]
      loops of [create_line] have no bound in the source, so they are run
      with a fuel argument and [OutOfFuel] is the third outcome.
    - [random.choice] reads a fixed sequence of raw draws [rand]; the state
      threaded through the packer is the number of draws consumed so far.
    - A PIL image is the term of PIL calls that built it ([Image]); its
      [img_width] and [img_height] follow the size contract of each call.
      Pixels are not modelled.  [resize] raises [ValueError] for a target
      size below 1 x 1, as PIL does; [new], [crop] and [paste] are taken to
      accept their arguments.
    - Paths follow the POSIX flavour of [os.path]; the file system and the
      image decoder are oracles ([listdir], [isfile], [decode]).
    - [update_path] and [get_files] receive whatever object the caller
      passes: a [str], or an object of another type ([PathItem],
      [PathArg]). *)

From Stdlib Require Import ZArith QArith Qround List String Ascii Bool Lia Lqa.
Import ListNotations.

Local Open Scope Z_scope.

(** ** Outcomes of Python code *)

Inductive exn : Set :=
| ZeroDivisionError
| IndexError
| TypeError
| OSError
| ValueError
| OverflowError.

Inductive result (A : Type) : Type :=
| Ok (a : A)
| Raise (e : exn)
| OutOfFuel.

Arguments Ok {A} a.
Arguments Raise {A} e.
Arguments OutOfFuel {A}.

Definition rbind {A B : Type} (c : result A) (k : A -> result B) : result B :=
  match c with
  | Ok a => k a
  | Raise e => Raise e
  | OutOfFuel => OutOfFuel
  end.

Notation "x <- c ;; k" := (rbind c (fun x => k))
  (at level 61, c at next level, right associativity).

Fixpoint mapM {A B : Type} (f : A -> result B) (l : list A) : result (list B) :=
  match l with
  | [] => Ok []
  | a :: l' => b <- f a ;; bs <- mapM f l' ;; Ok (b :: bs)
  end.

(** ** Python arithmetic *)

Module Py.

(** [a / b] on floats. *)
Definition truediv (a b : Q) : result Q :=
  if Qeq_bool b 0 then Raise ZeroDivisionError else Ok (a / b)%Q.

(** [a // b] on ints; [Z.div] rounds towards minus infinity as Python does. *)
Definition floordiv (a b : Z) : result Z :=
  if b =? 0 then Raise ZeroDivisionError else Ok (a / b).

(** [a < b] on floats. *)
Definition lt (a b : Q) : bool := negb (Qle_bool b a).

(** [round(x)] with one argument: nearest integer, ties to the even one. *)
Definition round (x : Q) : Z :=
  let f := Qfloor x in
  match (x - inject_Z f ?= 1 # 2)%Q with
  | Lt => f
  | Gt => f + 1
  | Eq => if Z.even f then f else f + 1
  end.

(** [sum(l)]: a left fold that starts from [0]. *)
Definition sum (l : list Q) : Q := fold_left Qplus l 0%Q.

(** [sum] over ints. *)
Definition isum (l : list Z) : Z := fold_left Z.add l 0.

(** [range(n)]. *)
Definition range (n : Z) : list Z := map Z.of_nat (seq 0 (Z.to_nat n)).

End Py.

(** ** The catalog *)

(** One entry of [image_data]: the dict [{"path": ..., "ratio": ...}]. *)
Record ImageData : Type := mkImageData {
  path : string;
  ratio : Q
}.

(** The local helper [sum_ratios] of [create_line]. *)
Definition sum_ratios (items : list ImageData) : Q :=
  Py.sum (map ratio items).

(** ** Random draws *)

(** A computation that draws: from the number of draws consumed so far to an
    outcome and the new count. *)
Definition M (A : Type) : Type := nat -> result (A * nat).

Definition ret {A : Type} (a : A) : M A := fun k => Ok (a, k).

Definition bind {A B : Type} (c : M A) (f : A -> M B) : M B :=
  fun k =>
    match c k with
    | Ok (a, k') => f a k'
    | Raise e => Raise e
    | OutOfFuel => OutOfFuel
    end.

Definition lift {A : Type} (c : result A) : M A :=
  fun k =>
    match c with
    | Ok a => Ok (a, k)
    | Raise e => Raise e
    | OutOfFuel => OutOfFuel
    end.

Definition diverge {A : Type} : M A := fun _ => OutOfFuel.

Notation "x <~ c ;; k" := (bind c (fun x => k))
  (at level 61, c at next level, right associativity).

Section Selection.

(** The raw draws of the random source, in the order they are consumed. *)
Variable rand : nat -> nat.

(** [random.choice(seq)]: [IndexError] on an empty sequence, otherwise the
    element at a position below [len(seq)]. *)
Definition choice {A : Type} (sq : list A) : M A :=
  fun k =>
    match sq with
    | [] => Raise IndexError
    | x :: _ => Ok (nth (rand k mod List.length sq)%nat sq x, S k)
    end.

(** The inner loop of [create_line]:
    [while sum_ratios(selected_ratios) < min_ratio: selected_ratios.append(choice(image_data))]. *)
Fixpoint fill (fuel : nat) (image_data : list ImageData) (min_ratio : Q)
    (selected_ratios : list ImageData) : M (list ImageData) :=
  match fuel with
  | O => diverge
  | S fuel' =>
      if Py.lt (sum_ratios selected_ratios) min_ratio
      then item <~ choice image_data ;;
           fill fuel' image_data min_ratio (selected_ratios ++ [item])
      else ret selected_ratios
  end.

Definition is_empty {A : Type} (l : list A) : bool :=
  match l with [] => true | _ => false end.

(** The outer loop of [create_line]: [while selected_ratios == []: ...]. *)
Fixpoint select (fuel : nat) (image_data : list ImageData)
    (min_ratio max_ratio : Q) (iters : Z) (selected_ratios : list ImageData)
    : M (list ImageData * Z) :=
  match fuel with
  | O => diverge
  | S fuel' =>
      if is_empty selected_ratios
      then
        let iters := iters + 1 in
        selected_ratios <~ fill fuel' image_data min_ratio selected_ratios ;;
        let selected_ratios :=
          if Py.lt max_ratio (sum_ratios selected_ratios)
          then [] else selected_ratios in
        select fuel' image_data min_ratio max_ratio iters selected_ratios
      else ret (selected_ratios, iters)
  end.

(** The three ratios computed at the head of [create_line]. *)
Record Bounds : Type := mkBounds {
  line_ratio : Q;
  min_ratio : Q;
  max_ratio : Q
}.

Definition bounds (width line_height : Z) (ratio_delta : Q) : result Bounds :=
  let height_shift := (ratio_delta * inject_Z line_height)%Q in
  line_ratio <- Py.truediv (inject_Z width) (inject_Z line_height) ;;
  min_ratio <- Py.truediv (inject_Z width) (inject_Z line_height + height_shift)%Q ;;
  max_ratio <- Py.truediv (inject_Z width) (inject_Z line_height - height_shift)%Q ;;
  Ok (mkBounds line_ratio min_ratio max_ratio).

(** [create_line] up to the end of the selection loop: the bounds, the
    accepted selection and the attempt count. *)
Definition select_ratios (fuel : nat) (image_data : list ImageData)
    (width line_height : Z) (ratio_delta : Q)
    : M (Bounds * list ImageData * Z) :=
  b <~ lift (bounds width line_height ratio_delta) ;;
  r <~ select fuel image_data (min_ratio b) (max_ratio b) 0 [] ;;
  ret (b, fst r, snd r).

(** The ratio correction of [create_line]: [curr_ratio], the new
    [ratio_delta] and the list [new_ratios]. *)
Definition new_ratios (selected_ratios : list ImageData) (line_ratio : Q)
    : result (list Q) :=
  let curr_ratio := sum_ratios selected_ratios in
  let ratio_delta := (line_ratio - curr_ratio)%Q in
  mapM (fun item =>
          q <- Py.truediv (ratio_delta * ratio item) curr_ratio ;;
          Ok (ratio item + q)%Q)
       selected_ratios.

End Selection.

(** A selection the outer loop can stop on: not empty, reached from a sum
    below a positive [min_ratio], and within the two bounds. *)
Definition accepted (min_ratio max_ratio : Q) (selected : list ImageData) : Prop :=
  selected <> []
  /\ (0 < min_ratio)%Q
  /\ (min_ratio <= sum_ratios selected)%Q
  /\ (sum_ratios selected <= max_ratio)%Q.

(** ** PIL images *)

(** [Image.Resampling]. *)
Inductive Resampling : Set :=
| NEAREST | BOX | BILINEAR | HAMMING | BICUBIC | LANCZOS.

(** An image is the term of the PIL calls that produced it. *)
Inductive Image : Type :=
| Open (fp : string) (size : Z * Z)
| New (mode : string) (size : Z * Z)
| Crop (im : Image) (box : Z * Z * Z * Z)
| Resize (im : Image) (size : Z * Z) (resample : Resampling)
| Paste (im : Image) (src : Image) (position : Z * Z).

(** [img.size]: an opened file has the size found by the decoder, [new] and
    [resize] have the size asked for, [crop] has the extent of its box and
    [paste] leaves the size of the target unchanged. *)
Fixpoint img_size (img : Image) : Z * Z :=
  match img with
  | Open _ size => size
  | New _ size => size
  | Crop _ (x0, y0, x1, y1) => (x1 - x0, y1 - y0)
  | Resize _ size _ => size
  | Paste im _ _ => img_size im
  end.

Definition img_width (img : Image) : Z := fst (img_size img).
Definition img_height (img : Image) : Z := snd (img_size img).

(** The positions of the pastes made into an image, oldest first. *)
Fixpoint pastes (img : Image) : list (Image * (Z * Z)) :=
  match img with
  | Paste im src position => pastes im ++ [(src, position)]
  | _ => []
  end.

(** The image the pastes were made into. *)
Fixpoint canvas (img : Image) : Image :=
  match img with
  | Paste im _ _ => canvas im
  | _ => img
  end.

(** Pastes that tile a row: the first one at [x], each next one where the
    one before it ends, all of them at [y = 0], the last one ending at
    [x_end]. *)
Fixpoint abutting (x : Z) (ps : list (Image * (Z * Z))) (x_end : Z) : Prop :=
  match ps with
  | [] => x = x_end
  | (img, position) :: rest =>
      position = (x, 0) /\ abutting (x + img_width img) rest x_end
  end.

(** [im.resize(size, resample)]: PIL raises [ValueError] ("height and width
    must be > 0") when a side of the target size is below 1. *)
Definition resize (im : Image) (size : Z * Z) (resample : Resampling)
    : result Image :=
  if (fst size <? 1) || (snd size <? 1)
  then Raise ValueError
  else Ok (Resize im size resample).

(** ** The cropper *)

Definition center_crop (img : Image) (height : Z) (crop_ratio : Q)
    (scale_method : Resampling) : result Image :=
  let width := Py.round (inject_Z height * crop_ratio) in
  r <- Py.truediv (inject_Z (img_width img)) (inject_Z (img_height img)) ;;
  size <-
    (if Py.lt crop_ratio r
     then
       let offset :=
         Py.round ((inject_Z (img_width img)
                    - crop_ratio * inject_Z (img_height img)) / 2) in
       Ok (offset, 0, img_width img - offset, img_height img)
     else
       q <- Py.truediv (inject_Z (img_width img)) crop_ratio ;;
       let offset := Py.round ((inject_Z (img_height img) - q) / 2) in
       Ok (0, offset, img_width img, img_height img - offset)) ;;
  resize (Crop img size) (width, height) scale_method.

(** ** The line packer and the assembler *)

Section Packer.

Variable rand : nat -> nat.

(** The decoder behind [Image.open]: the size of the image stored at a
    path, or [None] when the file cannot be read as an image. *)
Variable decode : string -> option (Z * Z).

Definition image_open (fp : string) : result Image :=
  match decode fp with
  | Some size => Ok (Open fp size)
  | None => Raise OSError
  end.

(** [l[i]]. *)
Definition getitem {A : Type} (l : list A) (i : nat) : result A :=
  match nth_error l i with
  | Some a => Ok a
  | None => Raise IndexError
  end.

(** The loop [for i, image in enumerate(selected_ratios)] of [create_line],
    from index [i] on; the result is [resized_images]. *)
Fixpoint resize_images (i : nat) (selected_ratios : list ImageData)
    (new_ratios : list Q) (line_height : Z) (scale_method : Resampling)
    : result (list Image) :=
  match selected_ratios with
  | [] => Ok []
  | image :: rest =>
      img <- image_open (path image) ;;
      r <- getitem new_ratios i ;;
      img <- center_crop img line_height r scale_method ;;
      imgs <- resize_images (S i) rest new_ratios line_height scale_method ;;
      Ok (img :: imgs)
  end.

(** The loop [for i, img in enumerate(resized_images)] of [create_line]. *)
Fixpoint paste_images (line : Image) (current_x : Z)
    (resized_images : list Image) : Image :=
  match resized_images with
  | [] => line
  | img :: rest =>
      paste_images (Paste line img (current_x, 0))
                   (current_x + img_width img) rest
  end.

Definition create_line (fuel : nat) (image_data : list ImageData)
    (width line_height : Z) (ratio_delta : Q) (scale_method : Resampling)
    : M (Image * Z) :=
  s <~ select_ratios rand fuel image_data width line_height ratio_delta ;;
  let '(b, selected_ratios, iters) := s in
  ratios <~ lift (new_ratios selected_ratios (line_ratio b)) ;;
  resized_images <~
    lift (resize_images 0 selected_ratios ratios line_height scale_method) ;;
  let sum_width := Py.isum (map img_width resized_images) in
  let line := New "RGB" (sum_width, line_height) in
  let line := paste_images line 0 resized_images in
  line <~ lift (resize line (width, line_height) scale_method) ;;
  ret (line, iters).

(** The loop [for line_n in range(lines)] of [collage]. *)
Fixpoint collage_lines (fuel : nat) (image_data : list ImageData)
    (width line_height : Z) (ratio_delta : Q) (scale_method : Resampling)
    (line_ns : list Z) (collage : Image) : M Image :=
  match line_ns with
  | [] => ret collage
  | line_n :: rest =>
      r <~ create_line fuel image_data width line_height ratio_delta
                       scale_method ;;
      let '(line, iters) := r in
      collage_lines fuel image_data width line_height ratio_delta scale_method
                    rest (Paste collage line (0, line_n * line_height))
  end.

(** [collage]; [image_data] is [self.image_data]. *)
Definition collage (fuel : nat) (image_data : list ImageData)
    (width height lines : Z) (ratio_delta : Q) (scale_method : Resampling)
    : M Image :=
  line_height <~ lift (Py.floordiv height lines) ;;
  let collage := New "RGBA" (width, line_height * lines) in
  collage <~ collage_lines fuel image_data width line_height ratio_delta
                           scale_method (Py.range lines) collage ;;
  lift (resize collage (width, height) scale_method).

(** The strips built by successive calls of [create_line], the first one
    starting with [k] draws consumed and the last one ending with [k']. *)
Fixpoint built_lines (fuel : nat) (image_data : list ImageData)
    (width line_height : Z) (ratio_delta : Q) (scale_method : Resampling)
    (k : nat) (strips : list Image) (k' : nat) : Prop :=
  match strips with
  | [] => k = k'
  | line :: rest =>
      exists iters k1,
        create_line fuel image_data width line_height ratio_delta scale_method k
        = Ok (line, iters, k1)
        /\ built_lines fuel image_data width line_height ratio_delta
             scale_method k1 rest k'
  end.

End Packer.

(** ** Paths (the POSIX flavour of [os.path]) *)

Module OsPath.

Local Open Scope string_scope.

(** [s.startswith(p)] and [s.endswith(p)]. *)
Definition startswith (s p : string) : bool := String.prefix p s.

Definition endswith (s p : string) : bool :=
  let n := String.length s in
  let m := String.length p in
  (m <=? n)%nat && String.eqb (String.substring (n - m) m s) p.

(** [s[:i]] and [s[i:]] for [0 <= i]. *)
Definition slice_to (s : string) (i : Z) : string :=
  String.substring 0 (Z.to_nat i) s.

Definition slice_from (s : string) (i : Z) : string :=
  String.substring (Z.to_nat i) (String.length s - Z.to_nat i) s.

(** [s.rfind(c)] for a one-character [c]: the last index of [c], or [-1]. *)
Fixpoint rfind_from (s : string) (c : ascii) (i last : Z) : Z :=
  match s with
  | EmptyString => last
  | String a s' => rfind_from s' c (i + 1) (if Ascii.eqb a c then i else last)
  end.

Definition rfind (s : string) (c : ascii) : Z := rfind_from s c 0 (-1).

(** [posixpath.join(a, b)]. *)
Definition join (a b : string) : string :=
  if startswith b "/" then b
  else if String.eqb a "" || endswith a "/" then a ++ b
  else a ++ "/" ++ b.

(** The loop of [genericpath._splitext] that skips the leading dots of the
    file name: is there a character other than a dot in
    [p[filenameIndex:dotIndex]]?  [n] is the length of that range. *)
Fixpoint skip_dots (n : nat) (p : string) (filenameIndex : Z) : bool :=
  match n with
  | O => false
  | S n' =>
      match String.get (Z.to_nat filenameIndex) p with
      | Some c =>
          if Ascii.eqb c "." then skip_dots n' p (filenameIndex + 1) else true
      | None => true
      end
  end.

(** [os.path.splitext(p)]. *)
Definition splitext (p : string) : string * string :=
  let sepIndex := rfind p "/" in
  let dotIndex := rfind p "." in
  if (dotIndex >? sepIndex)
     && skip_dots (Z.to_nat (dotIndex - (sepIndex + 1))) p (sepIndex + 1)
  then (slice_to p dotIndex, slice_from p dotIndex)
  else (p, "").

End OsPath.

(** [x in l] for a list of strings. *)
Definition contains (l : list string) (x : string) : bool :=
  existsb (String.eqb x) l.

(** ** Building the catalog *)

(** The class attribute [file_extensions]. *)
Definition file_extensions : list string :=
  ["jpg"; "jpeg"; "png"; "bmp"]%string.

(** An object that is neither a [str] nor a [list]. *)
Inductive PyObject : Type :=
| PyNone
| PyBool (b : bool)
| PyInt (n : Z)
| PyFloat (x : Q)
| PyBytes (s : string)
| PyTuple (items : list string)
| PyDict (items : list (string * string)).

(** What a [list] passed as [path] can hold, and what [get_files] can be
    called with: a [str], a [list], or an object of another type.  The
    hint [list[str]] is not checked when the code runs. *)
Inductive PathItem : Type :=
| ItemStr (s : string)
| ItemList (items : list string)
| ItemObj (o : PyObject).

Coercion ItemStr : string >-> PathItem.
Bind Scope string_scope with PathItem.

(** The values [update_path] can be called with: a [str], a [list], or
    an object of another type. *)
Inductive PathArg : Type :=
| PathStr (s : string)
| PathList (l : list PathItem)
| PathOther (o : PyObject).

(** What [os.listdir] lists: the directory at a path, or the one behind an
    open file descriptor. *)
Inductive DirRef : Type :=
| DirPath (path : string)
| DirFd (fd : Z).

Coercion DirPath : string >-> DirRef.
Bind Scope string_scope with DirRef.

Section Catalog.

(** [os.listdir]: the names in a directory, [None] when it cannot be
    listed; [os.path.isfile]. *)
Variable listdir : DirRef -> option (list string).
Variable isfile : string -> bool.

(** The decoder behind [Image.open], as in the packer. *)
Variable decode : string -> option (Z * Z).

Definition os_listdir (dir : DirRef) : result (list string) :=
  match listdir dir with
  | Some names => Ok names
  | None => Raise OSError
  end.

(** [os.listdir(fd)]: an [int] is taken as a file descriptor, and one that
    does not fit a C [int] is refused. *)
Definition listdir_fd (fd : Z) : result (list string) :=
  if (fd <? - 2 ^ 31) || (2 ^ 31 <=? fd)
  then Raise OverflowError
  else os_listdir (DirFd fd).

(** [[os.path.join(path, file) for file in names]] when [path] is [None]
    or an [int]: the first [join] raises [TypeError]. *)
Definition join_non_path (names : list string) : result (list string) :=
  if is_empty names then Ok [] else Raise TypeError.

(** [get_files(path, ext)].  The body is written for a [str].  With
    another object, [os.listdir] takes [None] as the current directory, an
    [int] (a [bool] too) as a file descriptor and [bytes] as a path, and
    refuses the rest with [TypeError]; after a listing, [os.path.join]
    refuses [None] and [int], and for [bytes] the test
    [file.startswith(".")] raises [TypeError] on the first entry that is a
    file. *)
Definition get_files (path : PathItem) (ext : list string) : result (list string) :=
  match path with
  | ItemStr path =>
      names <- os_listdir path ;;
      Ok (filter
            (fun file =>
               isfile file
               && negb (OsPath.startswith file ".")
               && contains ext (OsPath.slice_from (snd (OsPath.splitext file)) 1))
            (map (fun file => OsPath.join path file) names))
  | ItemObj PyNone =>
      names <- os_listdir "."%string ;; join_non_path names
  | ItemObj (PyInt fd) =>
      names <- listdir_fd fd ;; join_non_path names
  | ItemObj (PyBool b) =>
      names <- listdir_fd (if b then 1 else 0) ;; join_non_path names
  | ItemObj (PyBytes path) =>
      names <- os_listdir path ;;
      if existsb isfile (map (fun file => OsPath.join path file) names)
      then Raise TypeError
      else Ok []
  | ItemList _ | ItemObj (PyFloat _) | ItemObj (PyTuple _)
  | ItemObj (PyDict _) =>
      Raise TypeError
  end.

(** [list.remove(x)] on a list that holds [x]: the first occurrence goes. *)
Fixpoint list_remove (x : string) (l : list string) : list string :=
  match l with
  | [] => []
  | y :: l' => if String.eqb y x then l' else y :: list_remove x l'
  end.

(** The loop of [get_aspect_ratios] over the copy [images[:]]; [images] is
    the caller's list, which loses the files that fail (the bare [except]
    also catches a division by a zero height). *)
Fixpoint aspect_ratios_loop (copy : list string) (images : list string)
    (ratios : list ImageData) : list ImageData * list string :=
  match copy with
  | [] => (ratios, images)
  | image :: rest =>
      match
        (img <- image_open decode image ;;
         Py.truediv (inject_Z (img_width img)) (inject_Z (img_height img)))
      with
      | Ok r => aspect_ratios_loop rest images (ratios ++ [mkImageData image r])
      | _ => aspect_ratios_loop rest (list_remove image images) ratios
      end
  end.

(** [get_aspect_ratios(images)]: the ratios, and [images] as the call
    leaves it. *)
Definition get_aspect_ratios (images : list string)
    : list ImageData * list string :=
  aspect_ratios_loop images images [].

(** What the [try] block of [get_aspect_ratios] computes for one file: the
    ratio, or nothing when the file does not decode or has height [0]. *)
Definition probe_ratio (image : string) : option Q :=
  match decode image with
  | Some (w, h) => if h =? 0 then None else Some (inject_Z w / inject_Z h)%Q
  | None => None
  end.

Definition readable (image : string) : bool :=
  match probe_ratio image with Some _ => true | None => false end.

(** [isinstance(path, str)] and [isinstance(path, list)], the tests behind
    [case str()] and [case list()]. *)
Definition is_str (path : PathArg) : bool :=
  match path with PathStr _ => true | _ => false end.

Definition is_list (path : PathArg) : bool :=
  match path with PathList _ => true | _ => false end.

(** A list of paths: a [list] whose elements are all [str]. *)
Definition is_str_item (p : PathItem) : bool :=
  match p with ItemStr _ => true | _ => false end.

Definition is_path_list (path : PathArg) : bool :=
  match path with PathList l => forallb is_str_item l | _ => false end.

(** The attributes of a [Collager]; an attribute not yet assigned is [None]. *)
Record Collager : Type := mkCollager {
  image_path : option (list PathItem);
  image_files : option (list string);
  image_data : option (list ImageData)
}.

(** The object on entry to [__init__]. *)
Definition new_object : Collager := mkCollager None None None.

Definition set_image_path (self : Collager) (v : list PathItem) : Collager :=
  mkCollager (Some v) (image_files self) (image_data self).

Definition set_image_files (self : Collager) (v : list string) : Collager :=
  mkCollager (image_path self) (Some v) (image_data self).

Definition set_image_data (self : Collager) (v : list ImageData) : Collager :=
  mkCollager (image_path self) (image_files self) (Some v).

(** The loop [for p in path: self.image_files += self.get_files(p, ...)];
    when a call raises, the files gathered so far stay in the object. *)
Fixpoint extend_files (self : Collager) (files : list string)
    (path : list PathItem) : Collager * result (list string) :=
  match path with
  | [] => (self, Ok files)
  | p :: rest =>
      match get_files p file_extensions with
      | Ok found =>
          let files := (files ++ found)%list in
          extend_files (set_image_files self files) files rest
      | Raise e => (self, Raise e)
      | OutOfFuel => (self, OutOfFuel)
      end
  end.

(** The tail shared by the two accepting cases: [get_aspect_ratios] on
    [self.image_files], which it prunes in place, then the assignment of
    [self.image_data]. *)
Definition scan_ratios (self : Collager) (files : list string) : Collager :=
  let '(ratios, files) := get_aspect_ratios files in
  set_image_data (set_image_files self files) ratios.

(** [update_path]: the object as the call leaves it, and how the call ends. *)
Definition update_path (self : Collager) (path : PathArg)
    : Collager * result unit :=
  match path with
  | PathStr s =>
      let self := set_image_path self [ItemStr s] in
      match get_files s file_extensions with
      | Ok files => (scan_ratios (set_image_files self files) files, Ok tt)
      | Raise e => (self, Raise e)
      | OutOfFuel => (self, OutOfFuel)
      end
  | PathList l =>
      let self := set_image_path self l in
      let self := set_image_files self [] in
      match extend_files self [] l with
      | (self, Ok files) => (scan_ratios self files, Ok tt)
      | (self, Raise e) => (self, Raise e)
      | (self, OutOfFuel) => (self, OutOfFuel)
      end
  | PathOther _ => (self, Raise TypeError)
  end.

(** [Collager(path)]: the new object, unless [update_path] raises. *)
Definition init (path : PathArg) : result Collager :=
  match update_path new_object path with
  | (self, Ok _) => Ok self
  | (_, Raise e) => Raise e
  | (_, OutOfFuel) => OutOfFuel
  end.

End Catalog.

(** ** Sample inputs *)

Module Sample.

Local Open Scope string_scope.

(** Raw draws 0, 1, 2, ... *)
Definition draws : nat -> nat := fun n => n.

(** Every file decodes to a 30 x 20 image. *)
Definition decode : string -> option (Z * Z) := fun _ => Some (30, 20).

(** The catalog of the scenario in the specification: two square images. *)
Definition squares : list ImageData :=
  [mkImageData "a.jpg" 1; mkImageData "b.jpg" 1].

(** One image of ratio 2, and one of ratio 3. *)
Definition wide : ImageData := mkImageData "wide.jpg" 2.
Definition wider : ImageData := mkImageData "wider.jpg" 3.

(** The tolerance [0.05]. *)
Definition tolerance : Q := 5 # 100.

(** A file system with one directory, [photos], that holds a hidden image
    and a visible one; every path names a regular file. *)
Definition listdir (dir : DirRef) : option (list string) :=
  match dir with
  | DirPath path =>
      if String.eqb path "photos" then Some [".hidden.jpg"; "a.jpg"] else None
  | DirFd _ => None
  end.

(** The same two files, listed through the path [.]. *)
Definition listdir_here (dir : DirRef) : option (list string) :=
  match dir with
  | DirPath path =>
      if String.eqb path "." then Some [".hidden.jpg"; "a.jpg"] else None
  | DirFd _ => None
  end.

(** A file system whose current directory is empty, with nothing else. *)
Definition listdir_empty (dir : DirRef) : option (list string) :=
  match dir with
  | DirPath path => if String.eqb path "." then Some [] else None
  | DirFd _ => None
  end.

Definition isfile : string -> bool := fun _ => true.

End Sample.

(** * Properties *)

(** ** Arithmetic helpers *)

Lemma lt_true (a b : Q) : Py.lt a b = true <-> (a < b)%Q.
Proof.
  unfold Py.lt. rewrite negb_true_iff. split; intro H.
  - apply Qnot_le_lt. intro Hle. apply Qle_bool_iff in Hle. congruence.
  - destruct (Qle_bool b a) eqn:E; [|reflexivity].
    apply Qle_bool_iff in E. exfalso. exact (Qlt_not_le _ _ H E).
Qed.

Lemma lt_false (a b : Q) : Py.lt a b = false <-> (b <= a)%Q.
Proof.
  unfold Py.lt. rewrite negb_false_iff. apply Qle_bool_iff.
Qed.

Lemma truediv_ok (a b : Q) : ~ (b == 0)%Q -> Py.truediv a b = Ok (a / b)%Q.
Proof.
  intro H. unfold Py.truediv.
  destruct (Qeq_bool b 0) eqn:E; [|reflexivity].
  apply Qeq_bool_iff in E. contradiction.
Qed.

Lemma truediv_inv (a b q : Q) :
  Py.truediv a b = Ok q -> ~ (b == 0)%Q /\ q = (a / b)%Q.
Proof.
  unfold Py.truediv. destruct (Qeq_bool b 0) eqn:E; [discriminate|].
  intro H. injection H as <-. split; [|reflexivity].
  intro Hb. apply Qeq_bool_iff in Hb. congruence.
Qed.

Lemma fold_plus_shift (l : list Q) (a : Q) :
  (fold_left Qplus l a == a + fold_left Qplus l 0)%Q.
Proof.
  revert a. induction l as [|x l IH]; intro a; simpl.
  - ring.
  - rewrite (IH (a + x)%Q), (IH (0 + x)%Q). ring.
Qed.

Lemma sum_nil : Py.sum [] = 0%Q.
Proof. reflexivity. Qed.

Lemma sum_cons (x : Q) (l : list Q) : (Py.sum (x :: l) == x + Py.sum l)%Q.
Proof.
  unfold Py.sum. simpl. rewrite fold_plus_shift. ring.
Qed.

(** ** The selection loop *)

Lemma fill_inv rand fuel image_data min_ratio :
  forall selected k sel k',
    fill rand fuel image_data min_ratio selected k = Ok (sel, k') ->
    (min_ratio <= sum_ratios sel)%Q
    /\ (sel = selected \/ (sum_ratios selected < min_ratio)%Q).
Proof.
  induction fuel as [|fuel IH]; intros selected k sel k' H; simpl in H.
  - discriminate.
  - destruct (Py.lt (sum_ratios selected) min_ratio) eqn:E.
    + unfold bind in H.
      destruct (choice rand image_data k) as [[item k1]| |]; try discriminate.
      apply IH in H. destruct H as [H _]. split; [exact H|].
      right. now apply lt_true.
    + injection H as <- <-. split; [now apply lt_false | now left].
Qed.

Lemma select_inv rand fuel image_data min_ratio max_ratio :
  forall iters selected k sel iters' k',
    selected = [] \/ accepted min_ratio max_ratio selected ->
    select rand fuel image_data min_ratio max_ratio iters selected k
      = Ok (sel, iters', k') ->
    accepted min_ratio max_ratio sel.
Proof.
  induction fuel as [|fuel IH]; intros iters selected k sel iters' k' Hinv H;
    simpl in H.
  - discriminate.
  - destruct selected as [|item selected]; simpl in H.
    + unfold bind in H.
      destruct (fill rand fuel image_data min_ratio [] k) as [[sel1 k1]| |] eqn:F;
        try discriminate.
      apply fill_inv in F. destruct F as [Hmin Hstart].
      eapply IH; [|exact H].
      destruct (Py.lt max_ratio (sum_ratios sel1)) eqn:E; [now left|].
      apply lt_false in E.
      destruct sel1 as [|i1 sel1]; [now left|]. right.
      destruct Hstart as [Hstart|Hstart]; [discriminate|].
      repeat split; auto. discriminate.
    + injection H as <- <- <-.
      destruct Hinv as [Hinv|Hinv]; [discriminate|exact Hinv].
Qed.

Lemma bounds_inv width line_height ratio_delta b :
  bounds width line_height ratio_delta = Ok b ->
  let h := inject_Z line_height in
  let w := inject_Z width in
  ~ (h == 0)%Q /\ ~ (h + ratio_delta * h == 0)%Q /\ ~ (h - ratio_delta * h == 0)%Q
  /\ line_ratio b = (w / h)%Q
  /\ min_ratio b = (w / (h + ratio_delta * h))%Q
  /\ max_ratio b = (w / (h - ratio_delta * h))%Q.
Proof.
  unfold bounds. intro H.
  destruct (Py.truediv (inject_Z width) (inject_Z line_height)) as [r| |] eqn:E1;
    try discriminate.
  destruct (Py.truediv (inject_Z width)
              (inject_Z line_height + ratio_delta * inject_Z line_height))
    as [mn| |] eqn:E2; try discriminate.
  destruct (Py.truediv (inject_Z width)
              (inject_Z line_height - ratio_delta * inject_Z line_height))
    as [mx| |] eqn:E3; try discriminate.
  simpl in H. injection H as <-. simpl.
  apply truediv_inv in E1, E2, E3. intuition.
Qed.

Lemma select_ratios_inv rand fuel image_data width line_height ratio_delta k
    b selected iters k' :
  select_ratios rand fuel image_data width line_height ratio_delta k
    = Ok (b, selected, iters, k') ->
  bounds width line_height ratio_delta = Ok b
  /\ select rand fuel image_data (min_ratio b) (max_ratio b) 0 [] k
     = Ok (selected, iters, k').
Proof.
  unfold select_ratios, bind, lift, ret. intro H.
  destruct (bounds width line_height ratio_delta) as [b0| |]; try discriminate.
  destruct (select rand fuel image_data (min_ratio b0) (max_ratio b0) 0 [] k)
    as [[[sel it] k1]| |] eqn:E; try discriminate.
  simpl in H. injection H as -> -> -> ->. split; [reflexivity|exact E].
Qed.

Lemma correction_map (d C : Q) (l : list ImageData) :
  ~ (C == 0)%Q ->
  mapM (fun item => q <- Py.truediv (d * ratio item) C ;; Ok (ratio item + q)%Q) l
  = Ok (map (fun item => ratio item + d * ratio item / C)%Q l).
Proof.
  intro HC. induction l as [|item rest IH]; simpl.
  - reflexivity.
  - rewrite truediv_ok by exact HC. simpl. rewrite IH. reflexivity.
Qed.

Lemma new_ratios_map (selected : list ImageData) (R : Q) :
  ~ (sum_ratios selected == 0)%Q ->
  new_ratios selected R
  = Ok (map (fun item =>
               ratio item
               + (R - sum_ratios selected) * ratio item / sum_ratios selected)%Q
            selected).
Proof.
  intro HC. unfold new_ratios. now apply correction_map.
Qed.

Lemma sum_scaled (d C : Q) (l : list ImageData) :
  (Py.sum (map (fun item => ratio item + d * ratio item / C) l)
   == sum_ratios l + d * sum_ratios l / C)%Q.
Proof.
  unfold sum_ratios. induction l as [|item rest IH]; simpl.
  - rewrite sum_nil. unfold Qdiv. ring.
  - rewrite !sum_cons, IH. unfold Qdiv. ring.
Qed.

(** C2 (confirmed). Whenever the selection loop of [create_line] accepts a
    selection, the sum [S] of its uncorrected ratios lies between
    [width / (line_height + ratio_delta * line_height)] and
    [width / (line_height - ratio_delta * line_height)], and these are the
    values of [min_ratio] and [max_ratio] the code computed.  The statement
    needs nothing of the catalog or of the parameters beyond the loop
    having returned. *)
Theorem accepted_sum_within_bounds
    rand fuel image_data width line_height ratio_delta k b selected iters k' :
  select_ratios rand fuel image_data width line_height ratio_delta k
    = Ok (b, selected, iters, k') ->
  let h := inject_Z line_height in
  let w := inject_Z width in
  min_ratio b = (w / (h + ratio_delta * h))%Q
  /\ max_ratio b = (w / (h - ratio_delta * h))%Q
  /\ (w / (h + ratio_delta * h) <= sum_ratios selected)%Q
  /\ (sum_ratios selected <= w / (h - ratio_delta * h))%Q.
Proof.
  intros H h w. apply select_ratios_inv in H. destruct H as [Hb Hs].
  apply bounds_inv in Hb. destruct Hb as (_ & _ & _ & _ & Hmin & Hmax).
  apply select_inv in Hs; [|now left].
  destruct Hs as (_ & _ & Hlo & Hhi).
  fold h w in Hmin, Hmax. rewrite Hmin in Hlo. rewrite Hmax in Hhi.
  repeat split; assumption.
Qed.

(** C1 (confirmed). For every selection accepted by [create_line], with
    [C] the sum of its ratios and [R = width / line_height], the list
    [new_ratios] is computed without error, its entries are
    [ratio_i + (R - C) * ratio_i / C], and they sum to [R] exactly over
    the rationals. *)
Theorem corrected_ratios_sum_to_line_ratio
    rand fuel image_data width line_height ratio_delta k b selected iters k' :
  select_ratios rand fuel image_data width line_height ratio_delta k
    = Ok (b, selected, iters, k') ->
  let R := (inject_Z width / inject_Z line_height)%Q in
  let C := sum_ratios selected in
  line_ratio b = R
  /\ new_ratios selected (line_ratio b)
     = Ok (map (fun item => ratio item + (R - C) * ratio item / C)%Q selected)
  /\ (Py.sum (map (fun item => ratio item + (R - C) * ratio item / C)%Q selected)
      == R)%Q.
Proof.
  intros H R C. apply select_ratios_inv in H. destruct H as [Hb Hs].
  apply bounds_inv in Hb. destruct Hb as (_ & _ & _ & HR & _ & _).
  apply select_inv in Hs; [|now left].
  destruct Hs as (_ & Hpos & Hlo & _).
  assert (HC : ~ (C == 0)%Q).
  { intro E. fold C in Hlo. rewrite E in Hlo. exact (Qlt_not_le _ _ Hpos Hlo). }
  fold R in HR. rewrite HR. split; [reflexivity|]. split.
  - apply new_ratios_map. exact HC.
  - rewrite sum_scaled. fold C. field. exact HC.
Qed.

Lemma accepted_sum_within_bounds_witness :
  select_ratios Sample.draws 10 Sample.squares 200 100 Sample.tolerance 0%nat
  = Ok (mkBounds (200 / 100) (200 / (100 + Sample.tolerance * 100))
          (200 / (100 - Sample.tolerance * 100)),
        Sample.squares, 1, 2%nat)
  /\ (200 / (100 + Sample.tolerance * 100) <= sum_ratios Sample.squares)%Q
  /\ (sum_ratios Sample.squares <= 200 / (100 - Sample.tolerance * 100))%Q.
Proof.
  split; [reflexivity|].
  apply (accepted_sum_within_bounds Sample.draws 10 Sample.squares 200 100
           Sample.tolerance 0%nat
           (mkBounds (200 / 100) (200 / (100 + Sample.tolerance * 100))
              (200 / (100 - Sample.tolerance * 100)))
           Sample.squares 1 2%nat).
  reflexivity.
Defined.

Lemma corrected_ratios_sum_to_line_ratio_witness :
  select_ratios Sample.draws 10 Sample.squares 300 100 Sample.tolerance 0%nat
  = Ok (mkBounds (300 / 100) (300 / (100 + Sample.tolerance * 100))
          (300 / (100 - Sample.tolerance * 100)),
        Sample.squares ++ [mkImageData "a.jpg" 1], 1, 3%nat)
  /\ (Py.sum (map (fun item => ratio item + (300 / 100 - 3) * ratio item / 3)%Q
                (Sample.squares ++ [mkImageData "a.jpg" 1]))
      == 300 / 100)%Q.
Proof.
  split; [reflexivity|].
  apply (corrected_ratios_sum_to_line_ratio Sample.draws 10 Sample.squares
           300 100 Sample.tolerance 0%nat
           (mkBounds (300 / 100) (300 / (100 + Sample.tolerance * 100))
              (300 / (100 - Sample.tolerance * 100)))
           (Sample.squares ++ [mkImageData "a.jpg" 1]) 1 3%nat).
  reflexivity.
Defined.

(** ** Valid line parameters *)

Lemma inject_Z_pos (z : Z) : 0 < z -> (0 < inject_Z z)%Q.
Proof.
  intro H. unfold Qlt. simpl. lia.
Qed.

Lemma shifted_heights (h t : Q) :
  (0 < h)%Q -> (0 <= t)%Q -> (t < 1)%Q ->
  (0 < h - t * h)%Q /\ (h - t * h <= h + t * h)%Q /\ (0 < h + t * h)%Q.
Proof.
  intros Hh Ht0 Ht1.
  assert (H1 : (0 <= t * h)%Q) by (apply Qmult_le_0_compat; [exact Ht0|now apply Qlt_le_weak]).
  assert (H2 : (t * h < 1 * h)%Q) by (apply Qmult_lt_compat_r; assumption).
  repeat split; lra.
Qed.

Lemma div_pos (a b : Q) : (0 < a)%Q -> (0 < b)%Q -> (0 < a / b)%Q.
Proof.
  intros Ha Hb. apply Qlt_shift_div_l; [exact Hb|]. lra.
Qed.

Lemma div_le_antitone (a b c : Q) :
  (0 < a)%Q -> (0 < b)%Q -> (b <= c)%Q -> (a / c <= a / b)%Q.
Proof.
  intros Ha Hb Hbc.
  assert (Hc : (0 < c)%Q) by lra.
  apply Qle_shift_div_r; [exact Hc|].
  assert (E : (a / b * c == a + a / b * (c - b))%Q) by (field; lra).
  rewrite E.
  assert (H : (0 <= a / b * (c - b))%Q).
  { apply Qmult_le_0_compat; [apply Qlt_le_weak; now apply div_pos | lra]. }
  lra.
Qed.

Lemma bounds_ok (width line_height : Z) (ratio_delta : Q) :
  0 < width -> 0 < line_height -> (0 <= ratio_delta)%Q -> (ratio_delta < 1)%Q ->
  let h := inject_Z line_height in
  let w := inject_Z width in
  bounds width line_height ratio_delta
  = Ok (mkBounds (w / h) (w / (h + ratio_delta * h)) (w / (h - ratio_delta * h)))
  /\ (0 < w / h)%Q
  /\ (0 < w / (h + ratio_delta * h))%Q
  /\ (w / (h + ratio_delta * h) <= w / (h - ratio_delta * h))%Q.
Proof.
  intros Hw Hh Ht0 Ht1 h w.
  assert (Hh' : (0 < h)%Q) by now apply inject_Z_pos.
  assert (Hw' : (0 < w)%Q) by now apply inject_Z_pos.
  destruct (shifted_heights h ratio_delta Hh' Ht0 Ht1) as (Hlo & Hle & Hhi).
  split.
  - unfold bounds. fold h w.
    rewrite !truediv_ok by lra. reflexivity.
  - split; [now apply div_pos|]. split; [now apply div_pos|].
    now apply div_le_antitone.
Qed.

(** ** A catalog of one image *)

Lemma choice_single rand (item : ImageData) (k : nat) :
  choice rand [item] k = Ok (item, S k).
Proof.
  unfold choice. simpl List.length. rewrite Nat.mod_1_r. reflexivity.
Qed.

Lemma sum_ratios_single (item : ImageData) :
  (sum_ratios [item] == ratio item)%Q.
Proof.
  unfold sum_ratios, Py.sum. simpl. ring.
Qed.

Lemma fill_single rand fuel item mn k :
  (0 < mn)%Q -> (mn <= ratio item)%Q ->
  fill rand (S (S fuel)) [item] mn [] k = Ok ([item], S k).
Proof.
  intros Hpos Hle. cbn [fill].
  assert (E0 : Py.lt (sum_ratios []) mn = true) by (apply lt_true; exact Hpos).
  rewrite E0. unfold bind. rewrite choice_single. cbn [app].
  assert (E1 : Py.lt (sum_ratios [item]) mn = false).
  { apply lt_false. now rewrite sum_ratios_single. }
  rewrite E1. reflexivity.
Qed.

Lemma select_single_accepts rand fuel item mn mx iters k :
  (0 < mn)%Q -> (mn <= ratio item)%Q -> (ratio item <= mx)%Q ->
  select rand (S (S (S fuel))) [item] mn mx iters [] k
  = Ok ([item], iters + 1, S k).
Proof.
  intros Hpos Hlo Hhi. cbn [select is_empty]. unfold bind.
  rewrite fill_single by assumption.
  assert (E : Py.lt mx (sum_ratios [item]) = false).
  { apply lt_false. now rewrite sum_ratios_single. }
  rewrite E. reflexivity.
Qed.

Lemma select_single_rejects rand item mn mx :
  (0 < mn)%Q -> (mn <= mx)%Q -> (mx < ratio item)%Q ->
  forall fuel iters k,
    select rand fuel [item] mn mx iters [] k = OutOfFuel.
Proof.
  intros Hpos Hle Hgt.
  assert (E : Py.lt mx (sum_ratios [item]) = true).
  { apply lt_true. now rewrite sum_ratios_single. }
  induction fuel as [|fuel IH]; intros iters k.
  - reflexivity.
  - cbn [select is_empty]. unfold bind.
    destruct fuel as [|[|fuel]].
    + reflexivity.
    + cbn [fill].
      assert (E0 : Py.lt (sum_ratios []) mn = true) by (apply lt_true; exact Hpos).
      rewrite E0. unfold bind. rewrite choice_single. reflexivity.
    + rewrite fill_single by (try assumption; lra).
      rewrite E. apply IH.
Qed.

(** C4 (confirmed). The selection loop has no iteration cap.  With valid
    line parameters and a catalog whose only image has a ratio above
    [max_ratio], every pass of the inner loop ends with that one image
    selected, the sum is above [max_ratio] so the selection is discarded,
    and neither the loop nor [create_line] returns or raises, whatever the
    fuel. *)
Theorem single_wide_image_never_accepted
    rand decode item width line_height ratio_delta scale_method :
  0 < width -> 0 < line_height ->
  (0 <= ratio_delta)%Q -> (ratio_delta < 1)%Q ->
  let h := inject_Z line_height in
  let w := inject_Z width in
  let mn := (w / (h + ratio_delta * h))%Q in
  let mx := (w / (h - ratio_delta * h))%Q in
  (mx < ratio item)%Q ->
  (forall fuel k, fill rand (S (S fuel)) [item] mn [] k = Ok ([item], S k))
  /\ Py.lt mx (sum_ratios [item]) = true
  /\ (forall fuel iters k, select rand fuel [item] mn mx iters [] k = OutOfFuel)
  /\ (forall fuel k,
        create_line rand decode fuel [item] width line_height ratio_delta
          scale_method k = OutOfFuel).
Proof.
  intros Hw Hh Ht0 Ht1 h w mn mx Hgt.
  destruct (bounds_ok width line_height ratio_delta Hw Hh Ht0 Ht1)
    as (Hb & _ & Hpos & Hle).
  fold h w in Hb, Hpos, Hle. fold mn in Hb, Hpos, Hle. fold mx in Hb, Hle.
  assert (Hsel : forall fuel iters k,
             select rand fuel [item] mn mx iters [] k = OutOfFuel)
    by now apply select_single_rejects.
  split; [|split; [|split]].
  - intros fuel k. apply fill_single; [exact Hpos|lra].
  - apply lt_true. now rewrite sum_ratios_single.
  - exact Hsel.
  - intros fuel k. unfold create_line, select_ratios, bind, lift.
    rewrite Hb. cbn [min_ratio max_ratio]. rewrite Hsel. reflexivity.
Qed.

Lemma single_wide_image_never_accepted_witness :
  (200 / (100 - Sample.tolerance * 100) < ratio Sample.wider)%Q
  /\ (forall fuel k,
        create_line Sample.draws Sample.decode fuel [Sample.wider] 200 100
          Sample.tolerance LANCZOS k = OutOfFuel).
Proof.
  split; [reflexivity|].
  apply (single_wide_image_never_accepted Sample.draws Sample.decode
           Sample.wider 200 100 Sample.tolerance LANCZOS);
    try lia; try discriminate; reflexivity.
Defined.

(** ** An empty catalog *)

(** C9 (confirmed). With valid line parameters and an empty catalog,
    [create_line] ends in the [IndexError] of [random.choice] on the first
    draw: no draw is consumed, no selection is produced and the call does
    not run on. *)
Theorem empty_catalog_raises_index_error
    rand decode fuel width line_height ratio_delta scale_method k :
  0 < width -> 0 < line_height ->
  (0 < ratio_delta)%Q -> (ratio_delta < 1)%Q ->
  choice rand (@nil ImageData) k = Raise IndexError
  /\ select_ratios rand (S (S fuel)) [] width line_height ratio_delta k
     = Raise IndexError
  /\ create_line rand decode (S (S fuel)) [] width line_height ratio_delta
       scale_method k = Raise IndexError.
Proof.
  intros Hw Hh Ht0 Ht1.
  destruct (bounds_ok width line_height ratio_delta Hw Hh
              (Qlt_le_weak _ _ Ht0) Ht1) as (Hb & _ & Hpos & _).
  assert (Hsel : select_ratios rand (S (S fuel)) [] width line_height
                   ratio_delta k = Raise IndexError).
  { unfold select_ratios, bind, lift. rewrite Hb.
    cbn [min_ratio max_ratio select is_empty fill]. unfold bind.
    match goal with
    | |- context [Py.lt (sum_ratios []) ?m] =>
        assert (E0 : Py.lt (sum_ratios []) m = true)
          by (apply lt_true; exact Hpos)
    end.
    rewrite E0. reflexivity. }
  split; [reflexivity|]. split; [exact Hsel|].
  unfold create_line, bind. rewrite Hsel. reflexivity.
Qed.

Lemma empty_catalog_raises_index_error_witness :
  create_line Sample.draws Sample.decode 2 [] 200 100 Sample.tolerance
    LANCZOS 0%nat = Raise IndexError.
Proof.
  apply (empty_catalog_raises_index_error Sample.draws Sample.decode 0
           200 100 Sample.tolerance LANCZOS 0%nat);
    try lia; reflexivity.
Defined.

(** ** The cropper *)

Lemma round_error (x : Q) :
  (- (1 # 2) <= inject_Z (Py.round x) - x)%Q
  /\ (inject_Z (Py.round x) - x <= 1 # 2)%Q.
Proof.
  unfold Py.round.
  pose proof (Qfloor_le x) as Hle.
  pose proof (Qlt_floor x) as Hlt.
  rewrite inject_Z_plus in Hlt.
  change (inject_Z 1) with 1%Q in Hlt.
  set (f := Qfloor x) in *.
  destruct (x - inject_Z f ?= 1 # 2)%Q eqn:E.
  - apply Qeq_alt in E.
    destruct (Z.even f); [|rewrite inject_Z_plus; change (inject_Z 1) with 1%Q];
      split; lra.
  - apply Qlt_alt in E. split; lra.
  - apply Qgt_alt in E. rewrite inject_Z_plus. change (inject_Z 1) with 1%Q.
    split; lra.
Qed.

Lemma inject_Z_nonzero (z : Z) : z <> 0 -> ~ (inject_Z z == 0)%Q.
Proof.
  intros Hz E. unfold Qeq in E. simpl in E. lia.
Qed.

Lemma round_proper (x y : Q) : (x == y)%Q -> Py.round x = Py.round y.
Proof.
  intro E. unfold Py.round. rewrite (Qfloor_comp _ _ E).
  assert (Ec : (x - inject_Z (Qfloor y) ?= 1 # 2)%Q
               = (y - inject_Z (Qfloor y) ?= 1 # 2)%Q)
    by (apply Qcompare_comp; [now rewrite E|reflexivity]).
  now rewrite Ec.
Qed.

Lemma round_inject_Z (z : Z) : Py.round (inject_Z z) = z.
Proof.
  unfold Py.round. rewrite Qfloor_Z.
  destruct (inject_Z z - inject_Z z ?= 1 # 2)%Q eqn:E.
  - apply Qeq_alt in E. lra.
  - reflexivity.
  - apply Qgt_alt in E. lra.
Qed.

Lemma resize_ok (im : Image) (size : Z * Z) (resample : Resampling) :
  1 <= fst size -> 1 <= snd size ->
  resize im size resample = Ok (Resize im size resample).
Proof.
  intros H1 H2. unfold resize.
  destruct (fst size <? 1) eqn:E1; [lia|].
  destruct (snd size <? 1) eqn:E2; [lia|]. reflexivity.
Qed.

Lemma resize_inv (im : Image) (size : Z * Z) (resample : Resampling) out :
  resize im size resample = Ok out ->
  out = Resize im size resample /\ 1 <= fst size /\ 1 <= snd size.
Proof.
  unfold resize.
  destruct (fst size <? 1) eqn:E1; [discriminate|].
  destruct (snd size <? 1) eqn:E2; [discriminate|].
  intro H. injection H as <-. repeat split; lia.
Qed.


(** On an image of non-zero height and for a positive ratio, [center_crop]
    reaches its last line: the crop to some box, then the resize. *)
Lemma center_crop_reaches_resize img height crop_ratio scale_method :
  img_height img <> 0 -> (0 < crop_ratio)%Q ->
  exists box,
    center_crop img height crop_ratio scale_method
    = resize (Crop img box)
        (Py.round (inject_Z height * crop_ratio), height) scale_method.
Proof.
  intros Hh Hr. unfold center_crop.
  rewrite truediv_ok by now apply inject_Z_nonzero.
  cbn [rbind].
  destruct (Py.lt crop_ratio (inject_Z (img_width img) / inject_Z (img_height img))).
  - cbn [rbind]. eexists. reflexivity.
  - rewrite truediv_ok by lra. cbn [rbind]. eexists. reflexivity.
Qed.

Lemma center_crop_ok img height crop_ratio scale_method :
  img_height img <> 0 -> (0 < crop_ratio)%Q ->
  1 <= Py.round (inject_Z height * crop_ratio) -> 1 <= height ->
  exists box,
    center_crop img height crop_ratio scale_method
    = Ok (Resize (Crop img box)
            (Py.round (inject_Z height * crop_ratio), height) scale_method).
Proof.
  intros Hh Hr Hw Hheight.
  destruct (center_crop_reaches_resize img height crop_ratio scale_method Hh Hr)
    as [box E].
  exists box. rewrite E. now apply resize_ok.
Qed.



(** ** One image that fits the line *)

Lemma create_line_single
    rand decode fuel item width line_height ratio_delta scale_method k iw ih :
  0 < width -> 0 < line_height ->
  (0 <= ratio_delta)%Q -> (ratio_delta < 1)%Q ->
  let h := inject_Z line_height in
  let w := inject_Z width in
  (w / (h + ratio_delta * h) <= ratio item)%Q ->
  (ratio item <= w / (h - ratio_delta * h))%Q ->
  decode (path item) = Some (iw, ih) -> ih <> 0 ->
  select_ratios rand (S (S (S fuel))) [item] width line_height ratio_delta k
  = Ok (mkBounds (w / h) (w / (h + ratio_delta * h)) (w / (h - ratio_delta * h)),
        [item], 1, S k)
  /\ exists line,
       create_line rand decode (S (S (S fuel))) [item] width line_height
         ratio_delta scale_method k = Ok (line, 1, S k).
Proof.
  intros Hw Hh Ht0 Ht1 h w Hlo Hhi Hdec Hih.
  destruct (bounds_ok width line_height ratio_delta Hw Hh Ht0 Ht1)
    as (Hb & HR & Hpos & _).
  fold h w in Hb, HR, Hpos.
  assert (Hsel : select_ratios rand (S (S (S fuel))) [item] width line_height
                   ratio_delta k
                 = Ok (mkBounds (w / h) (w / (h + ratio_delta * h))
                         (w / (h - ratio_delta * h)), [item], 1, S k)).
  { unfold select_ratios, bind, lift. rewrite Hb. cbn [min_ratio max_ratio].
    rewrite select_single_accepts by assumption. reflexivity. }
  split; [exact Hsel|].
  pose proof (sum_ratios_single item) as HC.
  assert (Hr : (0 < ratio item)%Q) by lra.
  assert (HC0 : ~ (sum_ratios [item] == 0)%Q) by lra.
  unfold create_line, bind. rewrite Hsel. cbn [line_ratio].
  rewrite new_ratios_map by exact HC0.
  cbn [lift map resize_images]. unfold image_open, getitem. rewrite Hdec.
  cbn [rbind nth_error].
  pose proof (inject_Z_pos line_height Hh) as Hh'. fold h in Hh'.
  assert (Hcr : (ratio item
                 + (w / h - sum_ratios [item]) * ratio item / sum_ratios [item]
                 == w / h)%Q)
    by (rewrite HC; field; lra).
  match goal with
  | |- context [center_crop ?i ?lh ?r ?m] =>
      destruct (center_crop_ok i lh r m) as [box E]
  end.
  - exact Hih.
  - rewrite Hcr. exact HR.
  - assert (Ew : (inject_Z line_height
                  * (ratio item
                     + (w / h - sum_ratios [item]) * ratio item
                       / sum_ratios [item]) == inject_Z width)%Q)
      by (rewrite Hcr; fold h w; field; lra).
    rewrite (round_proper _ _ Ew), round_inject_Z. lia.
  - lia.
  - rewrite E. cbn [rbind lift]. rewrite resize_ok by (cbn [fst snd]; lia).
    eexists. reflexivity.
Qed.

(** C3 (confirmed). With valid line parameters and a catalog of exactly
    one image whose ratio lies in [[min_ratio, max_ratio]], the selection
    loop accepts on its first pass: the selection is that image, one draw
    was made, and the attempt count is 1; when the file decodes (to a
    non-zero height), [create_line] returns a strip together with the
    attempt count 1. *)
Theorem single_fitting_image_one_attempt
    rand decode fuel item width line_height ratio_delta scale_method k iw ih :
  0 < width -> 0 < line_height ->
  (0 <= ratio_delta)%Q -> (ratio_delta < 1)%Q ->
  let h := inject_Z line_height in
  let w := inject_Z width in
  (w / (h + ratio_delta * h) <= ratio item)%Q ->
  (ratio item <= w / (h - ratio_delta * h))%Q ->
  decode (path item) = Some (iw, ih) -> ih <> 0 ->
  select_ratios rand (S (S (S fuel))) [item] width line_height ratio_delta k
  = Ok (mkBounds (w / h) (w / (h + ratio_delta * h)) (w / (h - ratio_delta * h)),
        [item], 1, S k)
  /\ exists line,
       create_line rand decode (S (S (S fuel))) [item] width line_height
         ratio_delta scale_method k = Ok (line, 1, S k).
Proof.
  apply create_line_single.
Qed.

Lemma single_fitting_image_one_attempt_witness :
  exists line,
    create_line Sample.draws Sample.decode 3 [Sample.wide] 200 100
      Sample.tolerance LANCZOS 0%nat = Ok (line, 1, 1%nat).
Proof.
  apply (single_fitting_image_one_attempt Sample.draws Sample.decode 0
           Sample.wide 200 100 Sample.tolerance LANCZOS 0%nat 30 20);
    try lia; try discriminate; reflexivity.
Defined.

(** ** The assembler *)

Lemma create_line_inv rand decode fuel image_data width line_height
    ratio_delta scale_method k line iters k' :
  create_line rand decode fuel image_data width line_height ratio_delta
    scale_method k = Ok (line, iters, k') ->
  exists b selected ratios resized,
    select_ratios rand fuel image_data width line_height ratio_delta k
      = Ok (b, selected, iters, k')
    /\ new_ratios selected (line_ratio b) = Ok ratios
    /\ resize_images decode 0 selected ratios line_height scale_method
       = Ok resized
    /\ line = Resize (paste_images
                        (New "RGB" (Py.isum (map img_width resized), line_height))
                        0 resized)
                     (width, line_height) scale_method.
Proof.
  unfold create_line, bind, lift, ret. intro H.
  destruct (select_ratios rand fuel image_data width line_height ratio_delta k)
    as [[[[b sel] it] k1]| |]; try discriminate.
  destruct (new_ratios sel (line_ratio b)) as [nr| |] eqn:E1; try discriminate.
  destruct (resize_images decode 0 sel nr line_height scale_method)
    as [imgs| |] eqn:E2; try discriminate.
  match type of H with
  | context [resize ?im ?size ?m] =>
      destruct (resize im size m) as [out| |] eqn:E3; try discriminate
  end.
  apply resize_inv in E3. destruct E3 as (-> & _ & _).
  injection H as <- <- <-. exists b, sel, nr, imgs. auto.
Qed.

Lemma create_line_size rand decode fuel image_data width line_height
    ratio_delta scale_method k line iters k' :
  create_line rand decode fuel image_data width line_height ratio_delta
    scale_method k = Ok (line, iters, k') ->
  img_size line = (width, line_height).
Proof.
  intro H. apply create_line_inv in H.
  destruct H as (b & sel & nr & imgs & _ & _ & _ & ->). reflexivity.
Qed.

Lemma collage_lines_inv rand decode fuel image_data width line_height
    ratio_delta scale_method :
  forall line_ns collage0 k out k',
    collage_lines rand decode fuel image_data width line_height ratio_delta
      scale_method line_ns collage0 k = Ok (out, k') ->
    canvas out = canvas collage0
    /\ img_size out = img_size collage0
    /\ exists lines,
         pastes out
         = (pastes collage0
            ++ combine lines (map (fun n => (0, n * line_height)) line_ns))%list
         /\ List.length lines = List.length line_ns
         /\ Forall (fun line => img_size line = (width, line_height)) lines.
Proof.
  induction line_ns as [|n rest IH]; intros collage0 k out k' H;
    cbn [collage_lines] in H.
  - injection H as <- <-. split; [reflexivity|]. split; [reflexivity|].
    exists []. cbn. rewrite app_nil_r. repeat split. constructor.
  - unfold bind in H.
    destruct (create_line rand decode fuel image_data width line_height
                ratio_delta scale_method k) as [[[line iters] k1]| |] eqn:E;
      try discriminate.
    apply create_line_size in E.
    apply IH in H. destruct H as (Hc & Hs & lines & Hp & Hlen & Hall).
    split; [exact Hc|]. split; [exact Hs|].
    exists (line :: lines). cbn [pastes] in Hp. rewrite <- app_assoc in Hp.
    split; [exact Hp|]. split; [cbn; now rewrite Hlen|].
    now constructor.
Qed.

Lemma collage_lines_built rand decode fuel image_data width line_height
    ratio_delta scale_method :
  forall line_ns collage0 k out k',
    collage_lines rand decode fuel image_data width line_height ratio_delta
      scale_method line_ns collage0 k = Ok (out, k') ->
    exists lines,
      pastes out
      = (pastes collage0
         ++ combine lines (map (fun n => (0, n * line_height)) line_ns))%list
      /\ List.length lines = List.length line_ns
      /\ built_lines rand decode fuel image_data width line_height ratio_delta
           scale_method k lines k'.
Proof.
  induction line_ns as [|n rest IH]; intros collage0 k out k' H;
    cbn [collage_lines] in H.
  - injection H as <- <-. exists []. cbn. rewrite app_nil_r. repeat split.
  - unfold bind in H.
    destruct (create_line rand decode fuel image_data width line_height
                ratio_delta scale_method k) as [[[line iters] k1]| |] eqn:E;
      try discriminate.
    apply IH in H. destruct H as (lines & Hp & Hlen & Hbuilt).
    exists (line :: lines). cbn [pastes] in Hp. rewrite <- app_assoc in Hp.
    split; [exact Hp|]. split; [cbn; now rewrite Hlen|].
    cbn [built_lines]. exists iters, k1. split; [exact E|exact Hbuilt].
Qed.

Lemma built_lines_sizes rand decode fuel image_data width line_height
    ratio_delta scale_method :
  forall lines k k',
    built_lines rand decode fuel image_data width line_height ratio_delta
      scale_method k lines k' ->
    Forall (fun line => img_size line = (width, line_height)) lines.
Proof.
  induction lines as [|line rest IH]; intros k k' H; [constructor|].
  cbn [built_lines] in H. destruct H as (iters & k1 & E & Hrest).
  constructor; [now apply create_line_size in E|now apply IH in Hrest].
Qed.

(** With a catalog of one image that fits every line, [collage] does
    return once the fuel covers a single pass per line. *)
Lemma collage_lines_single rand decode fuel item width line_height
    ratio_delta scale_method iw ih :
  0 < width -> 0 < line_height ->
  (0 <= ratio_delta)%Q -> (ratio_delta < 1)%Q ->
  let h := inject_Z line_height in
  let w := inject_Z width in
  (w / (h + ratio_delta * h) <= ratio item)%Q ->
  (ratio item <= w / (h - ratio_delta * h))%Q ->
  decode (path item) = Some (iw, ih) -> ih <> 0 ->
  forall line_ns collage0 k,
  exists out,
    collage_lines rand decode (S (S (S fuel))) [item] width line_height
      ratio_delta scale_method line_ns collage0 k
    = Ok (out, (List.length line_ns + k)%nat).
Proof.
  intros Hw Hh Ht0 Ht1 h w Hlo Hhi Hdec Hih.
  induction line_ns as [|n rest IH]; intros collage0 k.
  - exists collage0. reflexivity.
  - destruct (create_line_single rand decode fuel item width line_height
                ratio_delta scale_method k iw ih Hw Hh Ht0 Ht1 Hlo Hhi Hdec Hih)
      as [_ [line Hline]].
    destruct (IH (Paste collage0 line (0, n * line_height)) (S k)) as [out Hout].
    exists out. cbn [collage_lines]. unfold bind. rewrite Hline.
    rewrite Hout. cbn [List.length]. now rewrite Nat.add_succ_r.
Qed.

Lemma collage_single_returns rand decode fuel item width height lines
    ratio_delta scale_method iw ih k :
  0 < width -> 0 < height -> 1 <= lines <= height ->
  (0 <= ratio_delta)%Q -> (ratio_delta < 1)%Q ->
  let h := inject_Z (height / lines) in
  let w := inject_Z width in
  (w / (h + ratio_delta * h) <= ratio item)%Q ->
  (ratio item <= w / (h - ratio_delta * h))%Q ->
  decode (path item) = Some (iw, ih) -> ih <> 0 ->
  exists img,
    collage rand decode (S (S (S fuel))) [item] width height lines ratio_delta
      scale_method k = Ok (img, (Z.to_nat lines + k)%nat)
    /\ img_size img = (width, height).
Proof.
  intros Hw Hh Hlines Ht0 Ht1 h w Hlo Hhi Hdec Hih.
  assert (Hlh : 0 < height / lines) by (apply Z.div_str_pos; lia).
  unfold collage, bind, Py.floordiv.
  destruct (lines =? 0) eqn:E0; [lia|]. cbn [lift].
  destruct (collage_lines_single rand decode fuel item width (height / lines)
              ratio_delta scale_method iw ih Hw Hlh Ht0 Ht1 Hlo Hhi Hdec Hih
              (Py.range lines)
              (New "RGBA" (width, height / lines * lines)) k) as [out Hout].
  rewrite Hout. unfold Py.range. rewrite length_map, length_seq.
  rewrite resize_ok by (cbn [fst snd]; lia).
  eexists. split; reflexivity.
Qed.

(** C6 (confirmed). For positive [width] and [height] and a number of
    lines between 1 and [height], whenever [collage] returns, with
    [line_height = height // lines]: [create_line] was called once per
    line, each call starting from the random state the one before left;
    the strip returned by call [n] was pasted at [(0, n * line_height)]
    into a new image of size [(width, line_height * lines)]; every strip
    has size [(width, line_height)]; and the image returned is that stack
    resized, of size exactly [(width, height)]. *)
Theorem collage_output_size
    rand decode fuel image_data width height lines ratio_delta scale_method
    k img k' :
  0 < width -> 0 < height -> 1 <= lines <= height ->
  collage rand decode fuel image_data width height lines ratio_delta
    scale_method k = Ok (img, k') ->
  let line_height := height / lines in
  exists stacked strips,
    img = Resize stacked (width, height) scale_method
    /\ img_size img = (width, height)
    /\ canvas stacked = New "RGBA" (width, line_height * lines)
    /\ img_size stacked = (width, line_height * lines)
    /\ built_lines rand decode fuel image_data width line_height ratio_delta
         scale_method k strips k'
    /\ pastes stacked
       = combine strips (map (fun n => (0, n * line_height)) (Py.range lines))
    /\ List.length strips = Z.to_nat lines
    /\ Forall (fun line => img_size line = (width, line_height)) strips.
Proof.
  intros _ _ Hlines H line_height.
  unfold collage, bind, lift, ret, Py.floordiv in H.
  destruct (lines =? 0) eqn:E0; [discriminate|].
  fold line_height in H.
  destruct (collage_lines rand decode fuel image_data width line_height
              ratio_delta scale_method (Py.range lines)
              (New "RGBA" (width, line_height * lines)) k)
    as [[stacked k1]| |] eqn:E; try discriminate.
  destruct (resize stacked (width, height) scale_method) as [out| |] eqn:Er;
    try discriminate.
  apply resize_inv in Er. destruct Er as (-> & _ & _).
  injection H as <- <-.
  destruct (collage_lines_inv _ _ _ _ _ _ _ _ _ _ _ _ _ E) as (Hc & Hs & _).
  apply collage_lines_built in E. destruct E as (strips & Hp & Hlen & Hbuilt).
  exists stacked, strips. cbn [canvas img_size pastes app] in Hc, Hs, Hp.
  repeat split; try assumption.
  - rewrite Hlen. unfold Py.range. now rewrite length_map, length_seq.
  - now apply built_lines_sizes in Hbuilt.
Qed.

Lemma collage_output_size_witness :
  exists img k',
    collage Sample.draws Sample.decode 10 Sample.squares 200 205 2
      Sample.tolerance LANCZOS 0%nat = Ok (img, k')
    /\ img_size img = (200, 205).
Proof.
  destruct (collage Sample.draws Sample.decode 10 Sample.squares 200 205 2
              Sample.tolerance LANCZOS 0%nat) as [[img k']| |] eqn:E;
    try (vm_compute in E; discriminate).
  exists img, k'. split; [reflexivity|].
  destruct (collage_output_size Sample.draws Sample.decode 10 Sample.squares
              200 205 2 Sample.tolerance LANCZOS 0%nat img k')
    as (stacked & strips & _ & Hsize & _); try lia; [exact E|exact Hsize].
Defined.

(** C10 (confirmed). For positive [width] and [height] and more lines
    than [height], the floor division gives [line_height = 0], the first
    call of [create_line] raises [ZeroDivisionError] at
    [width / line_height], and so does [collage], whatever the catalog,
    the tolerance and the fuel: it returns no image, so
    [lines <= height] is necessary for [collage] to return one. *)
Theorem too_many_lines_zero_division
    rand decode fuel image_data width height lines ratio_delta scale_method k :
  0 < width -> 0 < height -> height < lines ->
  Py.floordiv height lines = Ok 0
  /\ Py.truediv (inject_Z width) (inject_Z 0) = Raise ZeroDivisionError
  /\ create_line rand decode fuel image_data width 0 ratio_delta scale_method k
     = Raise ZeroDivisionError
  /\ collage rand decode fuel image_data width height lines ratio_delta
       scale_method k = Raise ZeroDivisionError
  /\ forall img k',
       collage rand decode fuel image_data width height lines ratio_delta
         scale_method k <> Ok (img, k').
Proof.
  intros Hw Hh Hlines.
  assert (Hdiv : Py.floordiv height lines = Ok 0).
  { unfold Py.floordiv. destruct (lines =? 0) eqn:E; [lia|].
    now rewrite Z.div_small by lia. }
  assert (Hline : create_line rand decode fuel image_data width 0 ratio_delta
                    scale_method k = Raise ZeroDivisionError) by reflexivity.
  assert (Hcol : collage rand decode fuel image_data width height lines
                   ratio_delta scale_method k = Raise ZeroDivisionError).
  { unfold collage, bind. rewrite Hdiv. cbn [lift]. unfold Py.range.
    destruct (Z.to_nat lines) as [|n] eqn:E; [lia|].
    cbn [seq map collage_lines]. unfold bind.
    rewrite Hline. reflexivity. }
  split; [exact Hdiv|]. split; [reflexivity|]. split; [exact Hline|].
  split; [exact Hcol|]. intros img k'. rewrite Hcol. discriminate.
Qed.

Lemma too_many_lines_zero_division_witness :
  collage Sample.draws Sample.decode 10 Sample.squares 200 1 2
    Sample.tolerance LANCZOS 0%nat = Raise ZeroDivisionError.
Proof.
  apply (too_many_lines_zero_division Sample.draws Sample.decode 10
           Sample.squares 200 1 2 Sample.tolerance LANCZOS 0%nat); lia.
Defined.

(** ** Building the catalog *)

Lemma get_files_spec (listdir : DirRef -> option (list string)) isfile
    (path : string) ext names :
  listdir path = Some names ->
  exists files,
    get_files listdir isfile path ext = Ok files
    /\ forall file,
         In file files <->
         (exists name, In name names /\ file = OsPath.join path name)
         /\ isfile file = true
         /\ OsPath.startswith file "." = false
         /\ contains ext (OsPath.slice_from (snd (OsPath.splitext file)) 1) = true.
Proof.
  intro Hls. unfold get_files, os_listdir. rewrite Hls. cbn [rbind].
  eexists. split; [reflexivity|]. intro file.
  rewrite filter_In, in_map_iff, !andb_true_iff, negb_true_iff.
  split.
  - intros [[name [<- Hin]] [[H1 H2] H3]]. repeat split; try assumption.
    exists name. now split.
  - intros [[name [Hin ->]] [H1 [H2 H3]]]. repeat split; try assumption.
    exists name. now split.
Qed.

(** C8 (code defect). [get_files] tests [startswith(".")] on the path
    joined with the directory, not on the file name.  Listing the
    directory [photos], the hidden file [.hidden.jpg] is returned; listing
    the same files through [.], nothing is returned, not even the visible
    [a.jpg]. *)
Theorem get_files_tests_joined_path :
  get_files Sample.listdir Sample.isfile "photos" file_extensions
  = Ok ["photos/.hidden.jpg"; "photos/a.jpg"]%string
  /\ get_files Sample.listdir_here Sample.isfile "." file_extensions = Ok [].
Proof.
  split; reflexivity.
Qed.

(** C7 (corrected). Called with an argument that is neither a [str] nor a
    [list], [update_path] raises [TypeError] and leaves the object as it
    was, whatever the file system and the decoder: nothing was listed and
    nothing was opened.  The constructor raises the same error.  The test
    is on the type of the argument alone: what a list holds is not
    looked at. *)
Theorem update_path_rejects_other_types listdir isfile decode self path :
  is_str path = false -> is_list path = false ->
  update_path listdir isfile decode self path = (self, Raise TypeError)
  /\ init listdir isfile decode path = Raise TypeError.
Proof.
  intros Hs Hl. destruct path as [s|l|o]; try discriminate.
  split; reflexivity.
Qed.

(** C7 as first stated, for every argument that is neither a [str] nor a
    list of paths, fails on a list that holds something else.  [[None]]
    is taken by [case list()]: [image_path] and [image_files] are
    overwritten and the current directory is listed; when it is empty the
    call succeeds.  [[1]] is taken the same way and ends in the [OSError]
    of [os.listdir(1)]. *)
Lemma list_of_non_paths_is_scanned :
  is_str (PathList [ItemObj PyNone]) = false
  /\ is_path_list (PathList [ItemObj PyNone]) = false
  /\ update_path Sample.listdir_empty Sample.isfile Sample.decode new_object
       (PathList [ItemObj PyNone])
     = (mkCollager (Some [ItemObj PyNone]) (Some []) (Some []), Ok tt)
  /\ update_path Sample.listdir Sample.isfile Sample.decode new_object
       (PathList [ItemObj (PyInt 1)])
     = (mkCollager (Some [ItemObj (PyInt 1)]) (Some []) None, Raise OSError)
  /\ ~ (forall listdir isfile decode self arg,
          is_str arg = false -> is_path_list arg = false ->
          update_path listdir isfile decode self arg
          = (self, Raise TypeError)).
Proof.
  split; [reflexivity|]. split; [reflexivity|]. split; [reflexivity|].
  split; [reflexivity|]. intro H.
  specialize (H Sample.listdir_empty Sample.isfile Sample.decode new_object
                (PathList [ItemObj PyNone]) eq_refl eq_refl).
  discriminate H.
Qed.

Lemma update_path_rejects_other_types_witness :
  update_path Sample.listdir Sample.isfile Sample.decode new_object
    (PathOther (PyTuple ["photos"; "more"]%string))
  = (new_object, Raise TypeError).
Proof.
  apply (update_path_rejects_other_types Sample.listdir Sample.isfile
           Sample.decode new_object
           (PathOther (PyTuple ["photos"; "more"]%string)));
    reflexivity.
Defined.

(** * Further properties of the code *)

(** ** The selection loop, continued *)

Lemma choice_in rand (A : Type) (sq : list A) k a k' :
  choice rand sq k = Ok (a, k') -> In a sq /\ k' = S k.
Proof.
  unfold choice. destruct sq as [|x sq]; [discriminate|].
  assert (Hin : In (nth (rand k mod List.length (x :: sq))%nat (x :: sq) x)
                   (x :: sq)).
  { apply nth_In. apply Nat.mod_upper_bound. discriminate. }
  intro H. injection H as <- <-. split; [exact Hin|reflexivity].
Qed.

(** What one run of the inner loop adds to the selection. *)
Lemma fill_adds rand fuel image_data mn :
  forall selected k sel k',
    fill rand fuel image_data mn selected k = Ok (sel, k') ->
    exists added,
      sel = (selected ++ added)%list
      /\ Forall (fun item => In item image_data) added
      /\ k' = (k + List.length added)%nat
      /\ (added <> [] -> (sum_ratios (removelast sel) < mn)%Q)
      /\ (added = [] -> (mn <= sum_ratios selected)%Q).
Proof.
  induction fuel as [|fuel IH]; intros selected k sel k' H; cbn [fill] in H.
  - discriminate.
  - destruct (Py.lt (sum_ratios selected) mn) eqn:E.
    + unfold bind in H.
      destruct (choice rand image_data k) as [[item k1]| |] eqn:Ec;
        try discriminate.
      apply choice_in in Ec. destruct Ec as [Hin ->].
      apply IH in H. destruct H as (added & -> & Hall & -> & Hlast & Hnone).
      exists (item :: added). rewrite <- app_assoc. cbn [app].
      split; [reflexivity|]. split; [now constructor|].
      split; [cbn [List.length]; lia|]. split; [|discriminate].
      intros _. destruct added as [|a added].
      * rewrite removelast_last. now apply lt_true.
      * rewrite <- app_assoc in Hlast. cbn [app] in Hlast.
        apply Hlast. discriminate.
    + injection H as <- <-. exists []. rewrite app_nil_r.
      split; [reflexivity|]. split; [constructor|].
      split; [cbn; lia|]. split; [congruence|].
      intros _. now apply lt_false.
Qed.

Lemma select_trace rand fuel image_data mn mx :
  (0 < mn)%Q ->
  forall iters k sel iters' k',
    select rand fuel image_data mn mx iters [] k = Ok (sel, iters', k') ->
    Forall (fun item => In item image_data) sel
    /\ sel <> []
    /\ (sum_ratios (removelast sel) < mn)%Q
    /\ iters < iters'
    /\ Z.of_nat k + (iters' - iters - 1) + Z.of_nat (List.length sel)
       <= Z.of_nat k'.
Proof.
  intro Hpos.
  induction fuel as [|fuel IH]; intros iters k sel iters' k' H;
    cbn [select is_empty] in H.
  - discriminate.
  - unfold bind in H.
    destruct (fill rand fuel image_data mn [] k) as [[sel1 k1]| |] eqn:F;
      try discriminate.
    apply fill_adds in F. cbn [app] in F.
    destruct F as (added & -> & Hall & -> & Hlast & Hnone).
    assert (Hne : added <> []).
    { intro E. apply Hnone in E. unfold sum_ratios, Py.sum in E. cbn in E. lra. }
    destruct (Py.lt mx (sum_ratios added)).
    + apply IH in H. destruct H as (H1 & H2 & H3 & H4 & H5).
      repeat split; try assumption; try lia.
      destruct added; [congruence|]. cbn [List.length] in H5. lia.
    + destruct added as [|a added]; [congruence|].
      destruct fuel as [|fuel]; [discriminate|].
      cbn [select is_empty] in H. injection H as <- <- <-.
      repeat split; try assumption; try lia; [now apply Hlast|].
      cbn [List.length]. lia.
Qed.

(** X1. Whenever the selection loop of [create_line] returns, every
    selected entry is an entry of the catalog, and the selection without
    its last entry sums to less than [min_ratio]: the loop stops drawing as
    soon as the sum reaches the lower bound. *)
Theorem selection_drawn_from_catalog
    rand fuel image_data width line_height ratio_delta k b selected iters k' :
  select_ratios rand fuel image_data width line_height ratio_delta k
    = Ok (b, selected, iters, k') ->
  Forall (fun item => In item image_data) selected
  /\ exists front last,
       selected = (front ++ [last])%list
       /\ (sum_ratios front < min_ratio b)%Q.
Proof.
  intro H. apply select_ratios_inv in H. destruct H as [_ Hs].
  pose proof (select_inv _ _ _ _ _ _ _ _ _ _ _ (or_introl eq_refl) Hs)
    as (_ & Hpos & _ & _).
  apply (select_trace _ _ _ _ _ Hpos) in Hs.
  destruct Hs as (Hall & Hne & Hlast & _ & _).
  split; [exact Hall|].
  destruct (exists_last Hne) as (front & last & ->).
  exists front, last. split; [reflexivity|].
  now rewrite removelast_last in Hlast.
Qed.

Lemma selection_drawn_from_catalog_witness :
  Forall (fun item => In item Sample.squares) Sample.squares.
Proof.
  apply (selection_drawn_from_catalog Sample.draws 10 Sample.squares 200 100
           Sample.tolerance 0%nat
           (mkBounds (200 / 100) (200 / (100 + Sample.tolerance * 100))
              (200 / (100 - Sample.tolerance * 100)))
           Sample.squares 1 2%nat).
  reflexivity.
Defined.

(** X2. Whenever the selection loop returns, the attempt count is at
    least 1, and the random source was asked at least once for every
    rejected attempt and once for every entry of the accepted selection. *)
Theorem attempts_and_draws
    rand fuel image_data width line_height ratio_delta k b selected iters k' :
  select_ratios rand fuel image_data width line_height ratio_delta k
    = Ok (b, selected, iters, k') ->
  1 <= iters
  /\ Z.of_nat k + (iters - 1) + Z.of_nat (List.length selected) <= Z.of_nat k'.
Proof.
  intro H. apply select_ratios_inv in H. destruct H as [_ Hs].
  pose proof (select_inv _ _ _ _ _ _ _ _ _ _ _ (or_introl eq_refl) Hs)
    as (_ & Hpos & _ & _).
  apply (select_trace _ _ _ _ _ Hpos) in Hs.
  destruct Hs as (_ & _ & _ & Hit & Hk). split; lia.
Qed.

Lemma attempts_and_draws_witness :
  1 <= 1 /\ Z.of_nat 0 + (1 - 1) + Z.of_nat (List.length Sample.squares)
           <= Z.of_nat 2.
Proof.
  apply (attempts_and_draws Sample.draws 10 Sample.squares 200 100
           Sample.tolerance 0%nat
           (mkBounds (200 / 100) (200 / (100 + Sample.tolerance * 100))
              (200 / (100 - Sample.tolerance * 100)))
           Sample.squares 1 2%nat).
  reflexivity.
Defined.

(** ** Parameters outside the valid range *)

Lemma inject_Z_zero_iff (z : Z) : (inject_Z z == 0)%Q <-> z = 0.
Proof.
  unfold Qeq. simpl. lia.
Qed.

(** X4. The head of [create_line] raises [ZeroDivisionError] exactly when
    [line_height] is [0] or [ratio_delta] is [1] or [-1]; [create_line]
    then raises it before any image is drawn, whatever the catalog. *)
Theorem bounds_zero_division
    rand decode fuel image_data width line_height ratio_delta scale_method k :
  (bounds width line_height ratio_delta = Raise ZeroDivisionError
   <-> line_height = 0 \/ (ratio_delta == 1)%Q \/ (ratio_delta == -1)%Q)
  /\ (line_height = 0 \/ (ratio_delta == 1)%Q \/ (ratio_delta == -1)%Q ->
      create_line rand decode fuel image_data width line_height ratio_delta
        scale_method k = Raise ZeroDivisionError).
Proof.
  assert (Hiff : bounds width line_height ratio_delta = Raise ZeroDivisionError
                 <-> line_height = 0 \/ (ratio_delta == 1)%Q
                     \/ (ratio_delta == -1)%Q).
  { unfold bounds, Py.truediv.
    set (h := inject_Z line_height).
    destruct (Qeq_bool h 0) eqn:E1; cbn [rbind].
    - apply Qeq_bool_iff in E1.
      apply (proj1 (inject_Z_zero_iff line_height)) in E1.
      split; [now left|reflexivity].
    - assert (Hh : ~ (h == 0)%Q).
      { intro E. apply Qeq_bool_iff in E. congruence. }
      destruct (Qeq_bool (h + ratio_delta * h) 0) eqn:E2; cbn [rbind].
      + apply Qeq_bool_iff in E2. split; [intros _|reflexivity].
        right. right.
        assert (E : (h * (ratio_delta + 1) == 0)%Q) by (rewrite <- E2; ring).
        apply Qmult_integral in E. destruct E as [E|E]; [contradiction|lra].
      + assert (H2 : ~ (h + ratio_delta * h == 0)%Q).
        { intro E. apply Qeq_bool_iff in E. congruence. }
        destruct (Qeq_bool (h - ratio_delta * h) 0) eqn:E3; cbn [rbind].
        * apply Qeq_bool_iff in E3. split; [intros _|reflexivity].
          right. left.
          assert (E : (h * (1 - ratio_delta) == 0)%Q) by (rewrite <- E3; ring).
          apply Qmult_integral in E. destruct E as [E|E]; [contradiction|lra].
        * assert (H3 : ~ (h - ratio_delta * h == 0)%Q).
          { intro E. apply Qeq_bool_iff in E. congruence. }
          split; [discriminate|].
          intros [E|[E|E]].
          -- apply (proj2 (inject_Z_zero_iff line_height)) in E. contradiction.
          -- exfalso. apply H3. rewrite E. ring.
          -- exfalso. apply H2. rewrite E. ring. }
  split; [exact Hiff|].
  intro H. apply Hiff in H.
  unfold create_line, select_ratios, bind, lift. rewrite H. reflexivity.
Qed.

Lemma bounds_zero_division_witness :
  create_line Sample.draws Sample.decode 10 Sample.squares 200 100 1 LANCZOS
    0%nat = Raise ZeroDivisionError.
Proof.
  apply (bounds_zero_division Sample.draws Sample.decode 10 Sample.squares
           200 100 1 LANCZOS 0%nat).
  right. left. reflexivity.
Defined.

Lemma div_neg (a b : Q) : (0 < a)%Q -> (b < 0)%Q -> (a / b < 0)%Q.
Proof.
  intros Ha Hb.
  assert (E : (a / b == - (a / - b))%Q) by (field; lra).
  assert (H : (0 < a / - b)%Q) by (apply div_pos; lra).
  lra.
Qed.

(** X5. With positive [width] and [line_height] and a tolerance above 1,
    [max_ratio] is negative while [min_ratio] is positive, so no selection
    is ever accepted: [create_line] never returns a strip, whatever the
    catalog, the draws and the fuel. *)
Theorem tolerance_above_one_never_returns
    rand decode fuel image_data width line_height ratio_delta scale_method k :
  0 < width -> 0 < line_height -> (1 < ratio_delta)%Q ->
  forall line iters k',
    create_line rand decode fuel image_data width line_height ratio_delta
      scale_method k <> Ok (line, iters, k').
Proof.
  intros Hw Hh Ht line iters k' H.
  unfold create_line, bind in H.
  destruct (select_ratios rand fuel image_data width line_height ratio_delta k)
    as [[[[b sel] it] k1]| |] eqn:E; try discriminate.
  clear H. apply select_ratios_inv in E. destruct E as [Hb Hs].
  apply bounds_inv in Hb. destruct Hb as (_ & _ & _ & _ & _ & Hmax).
  apply select_inv in Hs; [|now left].
  destruct Hs as (_ & Hpos & Hlo & Hhi).
  pose proof (inject_Z_pos _ Hw) as Hw'.
  pose proof (inject_Z_pos _ Hh) as Hh'.
  set (h := inject_Z line_height) in *.
  assert (Hd : (h - ratio_delta * h < 0)%Q).
  { assert (H1 : (1 * h < ratio_delta * h)%Q)
      by (apply Qmult_lt_compat_r; assumption).
    lra. }
  pose proof (div_neg _ _ Hw' Hd) as Hneg.
  rewrite Hmax in Hhi. lra.
Qed.

Lemma tolerance_above_one_never_returns_witness :
  (1 < 2)%Q
  /\ forall line iters k',
       create_line Sample.draws Sample.decode 10 Sample.squares 200 100 2
         LANCZOS 0%nat <> Ok (line, iters, k').
Proof.
  split; [reflexivity|].
  apply (tolerance_above_one_never_returns Sample.draws Sample.decode 10
           Sample.squares 200 100 2 LANCZOS 0%nat); reflexivity.
Defined.

(** ** The ratio correction, continued *)

Lemma Forall2_map_r (A B : Type) (P : A -> B -> Prop) (g : A -> B) (l : list A) :
  (forall a, In a l -> P a (g a)) -> Forall2 P l (map g l).
Proof.
  induction l as [|a l IH]; intro H; cbn [map]; constructor.
  - apply H. now left.
  - apply IH. intros a' Ha'. apply H. now right.
Qed.

(** X6. With valid line parameters, the correction of an accepted
    selection multiplies every ratio by the same factor
    [f = line_ratio / curr_ratio], and that factor lies between
    [1 - ratio_delta] and [1 + ratio_delta]: no image has its ratio changed
    by more than the tolerance. *)
Theorem correction_within_tolerance
    rand fuel image_data width line_height ratio_delta k b selected iters k' :
  0 < width -> 0 < line_height ->
  (0 <= ratio_delta)%Q -> (ratio_delta < 1)%Q ->
  select_ratios rand fuel image_data width line_height ratio_delta k
    = Ok (b, selected, iters, k') ->
  let f := (line_ratio b / sum_ratios selected)%Q in
  (1 - ratio_delta <= f)%Q
  /\ (f <= 1 + ratio_delta)%Q
  /\ exists ratios,
       new_ratios selected (line_ratio b) = Ok ratios
       /\ Forall2 (fun item a => (a == ratio item * f)%Q) selected ratios.
Proof.
  intros Hw Hh Ht0 Ht1 H f.
  apply select_ratios_inv in H. destruct H as [Hb Hs].
  apply bounds_inv in Hb. destruct Hb as (_ & _ & _ & HR & Hmin & Hmax).
  apply select_inv in Hs; [|now left].
  destruct Hs as (_ & Hpos & Hlo & Hhi).
  pose proof (inject_Z_pos _ Hw) as Hw'.
  pose proof (inject_Z_pos _ Hh) as Hh'.
  destruct (shifted_heights _ _ Hh' Ht0 Ht1) as (Hd1 & _ & Hd2).
  unfold f. rewrite HR.
  set (C := sum_ratios selected) in *.
  set (h := inject_Z line_height) in *.
  set (w := inject_Z width) in *.
  set (t := ratio_delta) in *.
  assert (HC : (0 < C)%Q) by lra.
  assert (E1 : (min_ratio b * (1 + t) == w / h)%Q) by (rewrite Hmin; field; lra).
  assert (E2 : (max_ratio b * (1 - t) == w / h)%Q) by (rewrite Hmax; field; lra).
  assert (H1 : (min_ratio b * (1 + t) <= C * (1 + t))%Q)
    by (apply Qmult_le_compat_r; lra).
  assert (H2 : (C * (1 - t) <= max_ratio b * (1 - t))%Q)
    by (apply Qmult_le_compat_r; lra).
  split; [|split].
  - apply Qle_shift_div_l; [exact HC|]. lra.
  - apply Qle_shift_div_r; [exact HC|]. lra.
  - eexists. split.
    + apply new_ratios_map. fold C. lra.
    + apply Forall2_map_r. intros item _. cbv beta. fold C. field.
      split; lra.
Qed.

Lemma correction_within_tolerance_witness :
  let f := (200 / 100 / sum_ratios Sample.squares)%Q in
  (1 - Sample.tolerance <= f)%Q /\ (f <= 1 + Sample.tolerance)%Q.
Proof.
  destruct (correction_within_tolerance Sample.draws 10 Sample.squares 200 100
              Sample.tolerance 0%nat
              (mkBounds (200 / 100) (200 / (100 + Sample.tolerance * 100))
                 (200 / (100 - Sample.tolerance * 100)))
              Sample.squares 1 2%nat) as (H1 & H2 & _);
    try lia; try discriminate; try reflexivity.
  split; [exact H1|exact H2].
Defined.

(** ** Compositing a line *)

Lemma isum_shift (l : list Z) (a : Z) : fold_left Z.add l a = a + Py.isum l.
Proof.
  unfold Py.isum. revert a. induction l as [|x l IH]; intro a; cbn [fold_left].
  - lia.
  - rewrite (IH (a + x)), (IH (0 + x)). lia.
Qed.

Lemma isum_cons (x : Z) (l : list Z) : Py.isum (x :: l) = x + Py.isum l.
Proof.
  unfold Py.isum at 1. cbn [fold_left]. rewrite isum_shift. lia.
Qed.

Lemma paste_images_spec :
  forall resized line x,
    canvas (paste_images line x resized) = canvas line
    /\ img_size (paste_images line x resized) = img_size line
    /\ exists ps,
         pastes (paste_images line x resized) = (pastes line ++ ps)%list
         /\ map fst ps = resized
         /\ abutting x ps (x + Py.isum (map img_width resized)).
Proof.
  induction resized as [|img rest IH]; intros line x; cbn [paste_images].
  - split; [reflexivity|]. split; [reflexivity|].
    exists []. rewrite app_nil_r. repeat split. cbn. unfold Py.isum. cbn. lia.
  - destruct (IH (Paste line img (x, 0)) (x + img_width img))
      as (Hc & Hs & ps & Hp & Hf & Ha).
    split; [exact Hc|]. split; [exact Hs|].
    exists ((img, (x, 0)) :: ps). cbn [pastes] in Hp.
    rewrite <- app_assoc in Hp. split; [exact Hp|].
    split; [cbn [map fst]; now rewrite Hf|].
    cbn [abutting map]. split; [reflexivity|].
    rewrite isum_cons. now rewrite Z.add_assoc.
Qed.

Lemma center_crop_inv img height crop_ratio scale_method out :
  center_crop img height crop_ratio scale_method = Ok out ->
  exists box,
    out = Resize (Crop img box)
            (Py.round (inject_Z height * crop_ratio), height) scale_method.
Proof.
  unfold center_crop. intro H.
  destruct (Py.truediv (inject_Z (img_width img)) (inject_Z (img_height img)))
    as [r| |]; try discriminate.
  cbn [rbind] in H.
  match type of H with
  | (size <- ?c ;; _) = _ => destruct c as [box| |]; try discriminate
  end.
  cbn [rbind] in H. apply resize_inv in H. destruct H as (-> & _ & _).
  now exists box.
Qed.

Lemma skipn_nth_error (A : Type) (l : list A) :
  forall i a, nth_error l i = Some a -> skipn i l = a :: skipn (S i) l.
Proof.
  induction l as [|x l IH]; intros [|i] a H; try discriminate.
  - injection H as <-. reflexivity.
  - cbn [nth_error] in H. apply IH in H. exact H.
Qed.

Lemma resize_images_sizes decode line_height scale_method ratios :
  forall selected i resized,
    resize_images decode i selected ratios line_height scale_method
      = Ok resized ->
    map img_size resized
    = map (fun r => (Py.round (inject_Z line_height * r), line_height))
          (firstn (List.length selected) (skipn i ratios)).
Proof.
  induction selected as [|item rest IH]; intros i resized H;
    cbn [resize_images] in H.
  - injection H as <-. reflexivity.
  - destruct (image_open decode (path item)) as [img| |]; try discriminate.
    cbn [rbind] in H. unfold getitem in H.
    destruct (nth_error ratios i) as [r|] eqn:Er; try discriminate.
    cbn [rbind] in H.
    destruct (center_crop img line_height r scale_method) as [out| |] eqn:Ec;
      try discriminate.
    cbn [rbind] in H.
    destruct (resize_images decode (S i) rest ratios line_height scale_method)
      as [outs| |] eqn:Er'; try discriminate.
    cbn [rbind] in H. injection H as <-.
    apply center_crop_inv in Ec. destruct Ec as [box ->].
    apply IH in Er'. rewrite (skipn_nth_error _ _ _ _ Er).
    cbn [List.length firstn map img_size]. now rewrite Er'.
Qed.

Lemma new_ratios_inv selected R ratios :
  new_ratios selected R = Ok ratios ->
  selected = []
  \/ (~ (sum_ratios selected == 0)%Q
      /\ ratios
         = map (fun item =>
                  ratio item
                  + (R - sum_ratios selected) * ratio item / sum_ratios selected)%Q
               selected).
Proof.
  intro H. destruct selected as [|item rest]; [now left|]. right.
  assert (HC : ~ (sum_ratios (item :: rest) == 0)%Q).
  { intro E. unfold new_ratios in H. cbn [mapM] in H.
    unfold Py.truediv in H at 1. apply Qeq_bool_iff in E. rewrite E in H.
    discriminate. }
  split; [exact HC|]. rewrite new_ratios_map in H by exact HC. congruence.
Qed.



Lemma rounded_sum_drift (h : Z) (rs : list Q) :
  let ws := map (fun r => Py.round (inject_Z h * r)) rs in
  let n := inject_Z (Z.of_nat (List.length rs)) in
  (- (n * (1 # 2)) <= inject_Z (Py.isum ws) - inject_Z h * Py.sum rs)%Q
  /\ (inject_Z (Py.isum ws) - inject_Z h * Py.sum rs <= n * (1 # 2))%Q.
Proof.
  induction rs as [|r rs IH]; cbn [map List.length].
  - unfold Py.isum, Py.sum. cbn [fold_left Z.of_nat].
    change (inject_Z 0) with 0%Q. split; lra.
  - cbv zeta in IH. destruct IH as [IH1 IH2].
    rewrite isum_cons, sum_cons, inject_Z_plus, Nat2Z.inj_succ.
    unfold Z.succ. rewrite inject_Z_plus. change (inject_Z 1) with 1%Q.
    destruct (round_error (inject_Z h * r)) as [R1 R2].
    set (n := inject_Z (Z.of_nat (List.length rs))) in *.
    split; lra.
Qed.

Lemma corrected_sum (selected : list ImageData) (R : Q) :
  ~ (sum_ratios selected == 0)%Q ->
  (Py.sum (map (fun item =>
                  ratio item
                  + (R - sum_ratios selected) * ratio item / sum_ratios selected)
               selected) == R)%Q.
Proof.
  intro HC. rewrite sum_scaled. field. exact HC.
Qed.

(** X8. Whenever [create_line] returns, the width of the strip before the
    final resize differs from the requested [width] by at most half a pixel
    per pasted image: the only drift is the rounding of each crop width. *)
Theorem strip_width_drift
    rand decode fuel image_data width line_height ratio_delta scale_method
    k line iters k' :
  create_line rand decode fuel image_data width line_height ratio_delta
    scale_method k = Ok (line, iters, k') ->
  exists strip,
    line = Resize strip (width, line_height) scale_method
    /\ let n := Z.of_nat (List.length (pastes strip)) in
       - n <= 2 * (img_width strip - width) <= n.
Proof.
  intro H. apply create_line_inv in H.
  destruct H as (b & sel & nr & imgs & Hsel & Hnr & Himgs & ->).
  eexists. split; [reflexivity|].
  match goal with
  | |- context [paste_images ?l ?x imgs] =>
      destruct (paste_images_spec imgs l x) as (_ & Hs & ps & Hp & Hf & _)
  end.
  cbn [img_size pastes app] in Hs, Hp.
  set (strip := paste_images _ _ _) in *.
  assert (Hw : img_width strip = Py.isum (map img_width imgs))
    by (unfold img_width; now rewrite Hs).
  cbv zeta. rewrite Hw, Hp. clear Hw Hs Hp strip.
  apply select_ratios_inv in Hsel. destruct Hsel as [Hb Hsel].
  apply bounds_inv in Hb. destruct Hb as (Hh & _ & _ & HR & _ & _).
  apply select_inv in Hsel; [|now left].
  destruct Hsel as (Hne & Hpos & Hlo & _).
  apply new_ratios_inv in Hnr. destruct Hnr as [->|[HC Hnr]]; [congruence|].
  apply resize_images_sizes in Himgs. cbn [skipn] in Himgs.
  rewrite firstn_all2 in Himgs by (rewrite Hnr, length_map; lia).
  assert (Hws : map img_width imgs
                = map (fun r => Py.round (inject_Z line_height * r)) nr).
  { unfold img_width. rewrite <- (map_map img_size fst), Himgs, map_map.
    reflexivity. }
  assert (Hlen : List.length ps = List.length nr).
  { rewrite <- (length_map fst ps), Hf, <- (length_map img_width imgs), Hws.
    now rewrite length_map. }
  rewrite Hws, Hlen.
  destruct (rounded_sum_drift line_height nr) as [D1 D2]. cbv zeta in D1, D2.
  assert (E : (inject_Z line_height * Py.sum nr == inject_Z width)%Q).
  { rewrite Hnr, corrected_sum by exact HC. rewrite HR. field. exact Hh. }
  rewrite E in D1, D2.
  set (sw := Py.isum _) in *. set (n := Z.of_nat (List.length nr)) in *.
  assert (Q1 : (inject_Z (- n) <= inject_Z (2 * (sw - width)))%Q).
  { unfold Z.sub.
    rewrite inject_Z_opp, inject_Z_mult, inject_Z_plus, inject_Z_opp.
    change (inject_Z 2) with 2%Q. lra. }
  assert (Q2 : (inject_Z (2 * (sw - width)) <= inject_Z n)%Q).
  { unfold Z.sub. rewrite inject_Z_mult, inject_Z_plus, inject_Z_opp.
    change (inject_Z 2) with 2%Q. lra. }
  unfold Qle in Q1, Q2. cbn [Qnum Qden inject_Z] in Q1, Q2. lia.
Qed.

Lemma strip_width_drift_witness :
  exists strip,
    Resize
      (Paste
         (Paste (New "RGB" (200, 100))
            (Resize (Crop (Open "a.jpg" (30, 20)) (5, 0, 25, 20)) (100, 100)
               LANCZOS) (0, 0))
         (Resize (Crop (Open "b.jpg" (30, 20)) (5, 0, 25, 20)) (100, 100)
            LANCZOS) (100, 0))
      (200, 100) LANCZOS
    = Resize strip (200, 100) LANCZOS
    /\ let n := Z.of_nat (List.length (pastes strip)) in
       - n <= 2 * (img_width strip - 200) <= n.
Proof.
  apply (strip_width_drift Sample.draws Sample.decode 10 Sample.squares
           200 100 Sample.tolerance LANCZOS 0%nat _ 1 2%nat).
  reflexivity.
Defined.

(** ** The crop box *)

Lemma Qhalf (x : Q) : (x / 2 == x * (1 # 2))%Q.
Proof. field. Qed.

Lemma rounded_half (x : Q) (n : Z) :
  (0 <= x)%Q -> (x < inject_Z n * (1 # 2))%Q ->
  0 <= Py.round x /\ 2 * Py.round x <= n.
Proof.
  intros H0 Hn. destruct (round_error x) as [R1 R2].
  set (z := Py.round x) in *.
  assert (Q1 : (inject_Z (-1) <= inject_Z (2 * z))%Q).
  { rewrite inject_Z_mult. change (inject_Z 2) with 2%Q.
    change (inject_Z (-1)) with (-1 # 1)%Q. lra. }
  assert (Q2 : (inject_Z (2 * z) < inject_Z (n + 1))%Q).
  { rewrite inject_Z_mult, inject_Z_plus. change (inject_Z 2) with 2%Q.
    change (inject_Z 1) with 1%Q. lra. }
  unfold Qle in Q1. unfold Qlt in Q2. cbn [Qnum Qden inject_Z] in Q1, Q2. lia.
Qed.

(** The two branches of [center_crop] on a decoded image and a positive
    ratio. *)
Lemma center_crop_cases img height crop_ratio scale_method :
  0 < img_width img -> 0 < img_height img -> (0 < crop_ratio)%Q ->
  let W := img_width img in
  let H := img_height img in
  let size := (Py.round (inject_Z height * crop_ratio), height) in
  (exists offset,
     (crop_ratio * inject_Z H < inject_Z W)%Q
     /\ offset = Py.round ((inject_Z W - crop_ratio * inject_Z H) / 2)
     /\ 0 <= offset /\ 2 * offset <= W
     /\ center_crop img height crop_ratio scale_method
        = resize (Crop img (offset, 0, W - offset, H)) size scale_method)
  \/ (exists offset,
        (inject_Z W / crop_ratio <= inject_Z H)%Q
        /\ offset = Py.round ((inject_Z H - inject_Z W / crop_ratio) / 2)
        /\ 0 <= offset /\ 2 * offset <= H
        /\ center_crop img height crop_ratio scale_method
           = resize (Crop img (0, offset, W, H - offset)) size scale_method).
Proof.
  intros HW HH Hr W H size.
  pose proof (inject_Z_pos _ HW) as HW'. pose proof (inject_Z_pos _ HH) as HH'.
  fold W in HW'. fold H in HH'.
  unfold center_crop. fold W H. rewrite truediv_ok by lra. cbn [rbind].
  destruct (Py.lt crop_ratio (inject_Z W / inject_Z H)) eqn:E.
  - left. apply lt_true in E.
    assert (E' : (crop_ratio * inject_Z H < inject_Z W)%Q).
    { apply (Qmult_lt_compat_r _ _ (inject_Z H)) in E; [|exact HH'].
      assert (Ed : (inject_Z W / inject_Z H * inject_Z H == inject_Z W)%Q)
        by (field; lra).
      rewrite Ed in E. exact E. }
    assert (Hp : (0 < crop_ratio * inject_Z H)%Q)
      by (apply Qmult_lt_0_compat; assumption).
    eexists. split; [exact E'|]. split; [reflexivity|].
    cbn [rbind]. split; [|split; [|reflexivity]];
      apply (rounded_half _ W); rewrite Qhalf; lra.
  - right. apply lt_false in E. rewrite truediv_ok by lra. cbn [rbind].
    assert (E' : (inject_Z W / crop_ratio <= inject_Z H)%Q).
    { apply Qle_shift_div_r; [exact Hr|].
      apply (Qmult_le_compat_r _ _ (inject_Z H)) in E; [|lra].
      assert (Ed : (inject_Z W / inject_Z H * inject_Z H == inject_Z W)%Q)
        by (field; lra).
      rewrite Ed in E. lra. }
    assert (Hp : (0 < inject_Z W / crop_ratio)%Q) by now apply div_pos.
    eexists. split; [exact E'|]. split; [reflexivity|].
    split; [|split; [|reflexivity]]; apply (rounded_half _ H);
      rewrite Qhalf; lra.
Qed.

(** X9. For a decoded image of positive size and a positive ratio, the
    box [center_crop] crops to lies inside the image, is not inverted, and
    is centred: what it removes on the left equals what it removes on the
    right, likewise for top and bottom, and it trims one direction only. *)
Theorem crop_box_inside_and_centred img height crop_ratio scale_method out :
  0 < img_width img -> 0 < img_height img -> (0 < crop_ratio)%Q ->
  center_crop img height crop_ratio scale_method = Ok out ->
  exists x0 y0 x1 y1,
    out = Resize (Crop img (x0, y0, x1, y1))
            (Py.round (inject_Z height * crop_ratio), height) scale_method
    /\ 0 <= x0 <= x1 /\ x1 <= img_width img
    /\ 0 <= y0 <= y1 /\ y1 <= img_height img
    /\ x0 = img_width img - x1
    /\ y0 = img_height img - y1
    /\ (x0 = 0 \/ y0 = 0).
Proof.
  intros HW HH Hr Hout.
  destruct (center_crop_cases img height crop_ratio scale_method HW HH Hr)
    as [(o & _ & _ & H0 & H2 & E)|(o & _ & _ & H0 & H2 & E)];
    rewrite E in Hout; apply resize_inv in Hout; destruct Hout as (-> & _ & _).
  - exists o, 0, (img_width img - o), (img_height img).
    split; [reflexivity|]. lia.
  - exists 0, o, (img_width img), (img_height img - o).
    split; [reflexivity|]. lia.
Qed.

Lemma crop_box_inside_and_centred_witness :
  exists x0 y0 x1 y1,
    Resize (Crop (Open "a.jpg" (30, 20)) (5, 0, 25, 20)) (100, 100) LANCZOS
    = Resize (Crop (Open "a.jpg" (30, 20)) (x0, y0, x1, y1))
        (Py.round (inject_Z 100 * 1), 100) LANCZOS
    /\ 0 <= x0 <= x1 /\ x1 <= 30
    /\ 0 <= y0 <= y1 /\ y1 <= 20
    /\ x0 = 30 - x1
    /\ y0 = 20 - y1
    /\ (x0 = 0 \/ y0 = 0).
Proof.
  apply (crop_box_inside_and_centred (Open "a.jpg" (30, 20)) 100 1 LANCZOS);
    reflexivity.
Defined.

(** X10. For a decoded image of positive size and a positive ratio, the
    region [center_crop] keeps has the target ratio up to one pixel: either
    it keeps the full height and a width within 1 of
    [crop_ratio * height], or the full width and a height within 1 of
    [width / crop_ratio]. *)
Theorem crop_region_matches_ratio img height crop_ratio scale_method out :
  0 < img_width img -> 0 < img_height img -> (0 < crop_ratio)%Q ->
  center_crop img height crop_ratio scale_method = Ok out ->
  exists region,
    out = Resize region
            (Py.round (inject_Z height * crop_ratio), height) scale_method
    /\ ((img_height region = img_height img
         /\ (-1 <= inject_Z (img_width region)
                   - crop_ratio * inject_Z (img_height img))%Q
         /\ (inject_Z (img_width region)
             - crop_ratio * inject_Z (img_height img) <= 1)%Q)
        \/ (img_width region = img_width img
            /\ (-1 <= inject_Z (img_height region)
                      - inject_Z (img_width img) / crop_ratio)%Q
            /\ (inject_Z (img_height region)
                - inject_Z (img_width img) / crop_ratio <= 1)%Q)).
Proof.
  intros HW HH Hr Hout.
  destruct (center_crop_cases img height crop_ratio scale_method HW HH Hr)
    as [(o & _ & Ho & _ & _ & E)|(o & _ & Ho & _ & _ & E)];
    rewrite E in Hout; apply resize_inv in Hout; destruct Hout as (-> & _ & _);
    eexists; (split; [reflexivity|]).
  - left.
    set (region := Crop img (o, 0, img_width img - o, img_height img)).
    assert (Ew : img_width region = img_width img + - (2 * o))
      by (unfold region, img_width, img_height; cbn [img_size fst snd]; lia).
    assert (Eh : img_height region = img_height img)
      by (unfold region, img_width, img_height; cbn [img_size fst snd]; lia).
    split; [exact Eh|]. rewrite Ew.
    destruct (round_error ((inject_Z (img_width img)
                            - crop_ratio * inject_Z (img_height img)) / 2))
      as [R1 R2].
    rewrite <- Ho in R1, R2.
    rewrite inject_Z_plus, inject_Z_opp, inject_Z_mult.
    change (inject_Z 2) with 2%Q.
    rewrite Qhalf in R1, R2. split; lra.
  - right.
    set (region := Crop img (0, o, img_width img, img_height img - o)).
    assert (Ew : img_width region = img_width img)
      by (unfold region, img_width, img_height; cbn [img_size fst snd]; lia).
    assert (Eh : img_height region = img_height img + - (2 * o))
      by (unfold region, img_width, img_height; cbn [img_size fst snd]; lia).
    split; [exact Ew|]. rewrite Eh.
    destruct (round_error ((inject_Z (img_height img)
                            - inject_Z (img_width img) / crop_ratio) / 2))
      as [R1 R2].
    rewrite <- Ho in R1, R2.
    rewrite inject_Z_plus, inject_Z_opp, inject_Z_mult.
    change (inject_Z 2) with 2%Q.
    rewrite Qhalf in R1, R2. split; lra.
Qed.

Lemma crop_region_matches_ratio_witness :
  exists region,
    Resize (Crop (Open "a.jpg" (30, 20)) (5, 0, 25, 20)) (100, 100) LANCZOS
    = Resize region (Py.round (inject_Z 100 * 1), 100) LANCZOS.
Proof.
  destruct (crop_region_matches_ratio (Open "a.jpg" (30, 20)) 100 1 LANCZOS
              (Resize (Crop (Open "a.jpg" (30, 20)) (5, 0, 25, 20)) (100, 100)
                 LANCZOS)) as (region & E & _); try reflexivity.
  exists region. exact E.
Defined.

(** ** The catalog, continued *)

Lemma probe_some decode image r :
  probe_ratio decode image = Some r ->
  (img <- image_open decode image ;;
   Py.truediv (inject_Z (img_width img)) (inject_Z (img_height img))) = Ok r.
Proof.
  unfold probe_ratio, image_open. destruct (decode image) as [[w h]|];
    [|discriminate].
  destruct (h =? 0) eqn:E; [discriminate|]. intro H. injection H as <-.
  cbn [rbind]. unfold img_width, img_height. cbn [img_size fst snd].
  apply truediv_ok. apply inject_Z_nonzero. lia.
Qed.

Lemma probe_none decode image :
  probe_ratio decode image = None ->
  exists e,
    (img <- image_open decode image ;;
     Py.truediv (inject_Z (img_width img)) (inject_Z (img_height img)))
    = Raise e.
Proof.
  unfold probe_ratio, image_open. destruct (decode image) as [[w h]|].
  - destruct (h =? 0) eqn:E; [|discriminate]. intros _.
    cbn [rbind]. unfold img_width, img_height. cbn [img_size fst snd].
    exists ZeroDivisionError. unfold Py.truediv.
    assert (Eh : h = 0) by lia. subst h. reflexivity.
  - intros _. exists OSError. reflexivity.
Qed.

Lemma list_remove_first_bad (keep : string -> bool) (x : string) :
  keep x = false ->
  forall done rest,
    forallb keep done = true ->
    list_remove x (done ++ x :: rest) = (done ++ rest)%list.
Proof.
  intros Hx. induction done as [|y done IH]; intros rest Hdone.
  - cbn [app list_remove]. now rewrite String.eqb_refl.
  - cbn [forallb] in Hdone. apply andb_true_iff in Hdone.
    destruct Hdone as [Hy Hdone]. cbn [app list_remove].
    destruct (String.eqb y x) eqn:E.
    + apply String.eqb_eq in E. congruence.
    + now rewrite IH.
Qed.

Lemma aspect_ratios_loop_spec decode :
  forall copy done ratios,
    forallb (readable decode) done = true ->
    exists found,
      aspect_ratios_loop decode copy (done ++ copy) ratios
      = ((ratios ++ found)%list,
         (done ++ filter (readable decode) copy)%list)
      /\ map path found = filter (readable decode) copy
      /\ Forall (fun d => probe_ratio decode (path d) = Some (ratio d)) found.
Proof.
  induction copy as [|image rest IH]; intros done ratios Hdone;
    cbn [aspect_ratios_loop filter].
  - exists []. rewrite !app_nil_r. repeat split. constructor.
  - destruct (probe_ratio decode image) as [r|] eqn:E.
    + assert (Hr : readable decode image = true)
        by (unfold readable; now rewrite E).
      rewrite Hr, (probe_some _ _ _ E).
      destruct (IH (done ++ [image])%list
                   (ratios ++ [mkImageData image r])%list)
        as (found & Hloop & Hpaths & Hall).
      { rewrite forallb_app, Hdone. cbn [forallb]. unfold readable.
        now rewrite E. }
      rewrite <- !app_assoc in Hloop. cbn [app] in Hloop.
      exists (mkImageData image r :: found). rewrite Hloop.
      split; [reflexivity|]. split; [cbn [map path]; now rewrite Hpaths|].
      constructor; assumption.
    + assert (Hr : readable decode image = false)
        by (unfold readable; now rewrite E).
      rewrite Hr.
      destruct (probe_none _ _ E) as [e He]. rewrite He.
      rewrite list_remove_first_bad with (keep := readable decode);
        [|exact Hr|exact Hdone].
      apply IH. exact Hdone.
Qed.

Lemma get_aspect_ratios_spec decode images :
  exists ratios,
    get_aspect_ratios decode images
    = (ratios, filter (readable decode) images)
    /\ map path ratios = filter (readable decode) images
    /\ Forall (fun d => probe_ratio decode (path d) = Some (ratio d)) ratios.
Proof.
  unfold get_aspect_ratios.
  destruct (aspect_ratios_loop_spec decode images [] [] eq_refl)
    as (found & Hloop & Hpaths & Hall).
  cbn [app] in Hloop. exists found. now rewrite Hloop.
Qed.

(** X11. [get_aspect_ratios] keeps exactly the files that decode to a
    non-zero height, in their order, both in the list of ratios it returns
    and in the list of files it prunes in place: afterwards the two lists
    are aligned, and every entry holds the width / height of its file. *)
Theorem aspect_ratios_aligned decode images :
  exists ratios,
    get_aspect_ratios decode images
    = (ratios, filter (readable decode) images)
    /\ map path ratios = filter (readable decode) images
    /\ Forall (fun d => probe_ratio decode (path d) = Some (ratio d)) ratios.
Proof.
  apply get_aspect_ratios_spec.
Qed.

(** X12. When the decoder only yields positive sizes, every ratio in the
    catalog built by [get_aspect_ratios] is positive, and no file that
    decodes is dropped. *)
Theorem catalog_ratios_positive decode images :
  (forall image w h, decode image = Some (w, h) -> 0 < w /\ 0 < h) ->
  Forall (fun d => (0 < ratio d)%Q) (fst (get_aspect_ratios decode images))
  /\ snd (get_aspect_ratios decode images)
     = filter (fun image => match decode image with
                            | Some _ => true | None => false end) images.
Proof.
  intro Hpos.
  destruct (get_aspect_ratios_spec decode images) as (ratios & -> & _ & Hall).
  cbn [fst snd]. split.
  - eapply Forall_impl; [|exact Hall]. intros d Hd. cbv beta in Hd.
    unfold probe_ratio in Hd.
    destruct (decode (path d)) as [[w h]|] eqn:E; [|discriminate].
    destruct (Hpos _ _ _ E) as [Hw Hh].
    destruct (h =? 0); [discriminate|]. injection Hd as Hd. rewrite <- Hd.
    apply div_pos; now apply inject_Z_pos.
  - apply filter_ext. intro image. unfold readable, probe_ratio.
    destruct (decode image) as [[w h]|] eqn:E; [|reflexivity].
    destruct (Hpos _ _ _ E) as [_ Hh].
    destruct (h =? 0) eqn:E0; [lia|reflexivity].
Qed.

Lemma catalog_ratios_positive_witness :
  Forall (fun d => (0 < ratio d)%Q)
    (fst (get_aspect_ratios Sample.decode ["a.jpg"; "b.jpg"]%string)).
Proof.
  apply (catalog_ratios_positive Sample.decode ["a.jpg"; "b.jpg"]%string).
  intros image w h H. injection H as <- <-. split; reflexivity.
Defined.

(** ** [update_path], continued *)

Lemma extend_files_keeps listdir isfile :
  forall dirs self files self' r,
    extend_files listdir isfile self files dirs = (self', r) ->
    image_path self' = image_path self
    /\ image_data self' = image_data self.
Proof.
  induction dirs as [|p rest IH]; intros self files self' r H;
    cbn [extend_files] in H.
  - injection H as <- _. split; reflexivity.
  - destruct (get_files listdir isfile p file_extensions) as [found| |].
    + apply IH in H. exact H.
    + injection H as <- _. split; reflexivity.
    + injection H as <- _. split; reflexivity.
Qed.

Lemma extend_files_ok listdir isfile :
  forall dirs fss self files,
    Forall2 (fun p fs => get_files listdir isfile p file_extensions = Ok fs)
      dirs fss ->
    image_files self = Some files ->
    extend_files listdir isfile self files dirs
    = (set_image_files self (files ++ List.concat fss),
       Ok (files ++ List.concat fss)%list).
Proof.
  induction dirs as [|p rest IH]; intros fss self files HF Hfiles;
    inversion HF as [|p' fs rest' fss' Hp Hrest]; subst; cbn [extend_files List.concat].
  - rewrite app_nil_r. destruct self as [ip ifs idt]. cbn in Hfiles. subst ifs.
    reflexivity.
  - rewrite Hp.
    rewrite (IH fss' (set_image_files self (files ++ fs)) (files ++ fs)%list
               Hrest eq_refl).
    rewrite <- app_assoc. reflexivity.
Qed.

Lemma extend_files_inv listdir isfile :
  forall dirs self files self' all,
    extend_files listdir isfile self files dirs = (self', Ok all) ->
    exists fss,
      Forall2 (fun p fs => get_files listdir isfile p file_extensions = Ok fs)
        dirs fss.
Proof.
  induction dirs as [|p rest IH]; intros self files self' all H;
    cbn [extend_files] in H.
  - exists []. constructor.
  - destruct (get_files listdir isfile p file_extensions) as [found| |] eqn:E;
      try (injection H as _ H; discriminate).
    apply IH in H. destruct H as [fss HF]. exists (found :: fss).
    now constructor.
Qed.

Lemma scan_ratios_spec decode self files :
  exists data,
    scan_ratios decode self files
    = mkCollager (image_path self) (Some (filter (readable decode) files))
        (Some data)
    /\ map path data = filter (readable decode) files
    /\ Forall (fun d => probe_ratio decode (path d) = Some (ratio d)) data.
Proof.
  unfold scan_ratios.
  destruct (get_aspect_ratios_spec decode files) as (ratios & -> & Hp & Hall).
  exists ratios. repeat split; assumption.
Qed.

Lemma update_path_list_ok listdir isfile decode self l fss :
  Forall2 (fun p fs => get_files listdir isfile p file_extensions = Ok fs)
    l fss ->
  exists data,
    update_path listdir isfile decode self (PathList l)
    = (mkCollager (Some l) (Some (filter (readable decode) (List.concat fss)))
         (Some data), Ok tt)
    /\ map path data = filter (readable decode) (List.concat fss)
    /\ Forall (fun d => probe_ratio decode (path d) = Some (ratio d)) data.
Proof.
  intro HF. cbn [update_path].
  rewrite (extend_files_ok listdir isfile l fss
             (set_image_files (set_image_path self l) []) [] HF eq_refl).
  cbn [app].
  destruct (scan_ratios_spec decode
              (set_image_files
                 (set_image_files (set_image_path self l) []) (List.concat fss))
              (List.concat fss)) as (data & -> & Hp & Hall).
  exists data. repeat split; assumption.
Qed.

(** X13. Called with a list of directories that can all be listed,
    [update_path] succeeds and the catalog is the concatenation, in the
    order of the list, of what [get_files] finds in each directory, less
    the files that do not decode; nothing is deduplicated, and the three
    attributes of the object are all replaced. *)
Theorem update_path_list_concatenates listdir isfile decode self l fss :
  Forall2 (fun p fs => get_files listdir isfile p file_extensions = Ok fs)
    l fss ->
  exists data,
    update_path listdir isfile decode self (PathList l)
    = (mkCollager (Some l) (Some (filter (readable decode) (List.concat fss)))
         (Some data), Ok tt)
    /\ map path data = filter (readable decode) (List.concat fss).
Proof.
  intro HF.
  destruct (update_path_list_ok listdir isfile decode self l fss HF)
    as (data & E & Hp & _).
  exists data. split; assumption.
Qed.

Lemma update_path_list_concatenates_witness :
  exists data,
    update_path Sample.listdir Sample.isfile Sample.decode new_object
      (PathList [ItemStr "photos"; ItemStr "photos"])
    = (mkCollager (Some [ItemStr "photos"; ItemStr "photos"])
         (Some (filter (readable Sample.decode)
                  (List.concat [["photos/.hidden.jpg"; "photos/a.jpg"];
                           ["photos/.hidden.jpg"; "photos/a.jpg"]]%string)))
         (Some data), Ok tt)
    /\ map path data
       = filter (readable Sample.decode)
           (List.concat [["photos/.hidden.jpg"; "photos/a.jpg"];
                    ["photos/.hidden.jpg"; "photos/a.jpg"]]%string).
Proof.
  apply (update_path_list_concatenates Sample.listdir Sample.isfile
           Sample.decode new_object).
  repeat constructor.
Defined.

(** X14. When the directory can be listed, [update_path] with a single
    path and [update_path] with the one-element list of that path leave
    the same object. *)
Theorem update_path_str_as_singleton
    listdir isfile decode self (s : string) files :
  get_files listdir isfile s file_extensions = Ok files ->
  update_path listdir isfile decode self (PathStr s)
  = update_path listdir isfile decode self (PathList [ItemStr s]).
Proof.
  intro H. cbn [update_path extend_files]. rewrite H. cbn [app extend_files].
  unfold scan_ratios.
  destruct (get_aspect_ratios decode files) as [ratios kept].
  reflexivity.
Qed.

Lemma update_path_str_as_singleton_witness :
  update_path Sample.listdir Sample.isfile Sample.decode new_object
    (PathStr "photos")
  = update_path Sample.listdir Sample.isfile Sample.decode new_object
      (PathList [ItemStr "photos"]).
Proof.
  apply (update_path_str_as_singleton Sample.listdir Sample.isfile
           Sample.decode new_object "photos"
           ["photos/.hidden.jpg"; "photos/a.jpg"]%string).
  reflexivity.
Defined.

(** X15. After any successful [update_path] the three attributes are all
    set, [image_data] has one entry per file of [image_files], in the same
    order, each with the width / height of that file, and [image_files]
    holds no file that fails to decode. *)
Theorem update_path_keeps_catalog_aligned listdir isfile decode self arg self' :
  update_path listdir isfile decode self arg = (self', Ok tt) ->
  exists paths files data,
    self' = mkCollager (Some paths) (Some files) (Some data)
    /\ map path data = files
    /\ forallb (readable decode) files = true
    /\ Forall (fun d => probe_ratio decode (path d) = Some (ratio d)) data.
Proof.
  intro H. destruct arg as [s|l|o].
  - cbn [update_path] in H.
    destruct (get_files listdir isfile s file_extensions) as [files| |];
      try (injection H as _ H; discriminate).
    injection H as <-.
    destruct (scan_ratios_spec decode
                (set_image_files (set_image_path self [ItemStr s]) files)
                files)
      as (data & -> & Hp & Hall).
    exists [ItemStr s], (filter (readable decode) files), data.
    repeat split; try assumption.
    apply forallb_forall. intros x Hx. apply filter_In in Hx. tauto.
  - assert (HF : exists fss,
               Forall2 (fun p fs =>
                          get_files listdir isfile p file_extensions = Ok fs)
                 l fss).
    { cbn [update_path] in H.
      destruct (extend_files listdir isfile
                  (set_image_files (set_image_path self l) []) [] l)
        as [self1 [all| |]] eqn:E; try (injection H as _ H; discriminate).
      now apply extend_files_inv in E. }
    destruct HF as [fss HF].
    destruct (update_path_list_ok listdir isfile decode self l fss HF)
      as (data & E & Hp & Hall).
    rewrite E in H. injection H as <-.
    exists l, (filter (readable decode) (List.concat fss)), data.
    repeat split; try assumption.
    apply forallb_forall. intros x Hx. apply filter_In in Hx. tauto.
  - cbn [update_path] in H. injection H as _ H. discriminate.
Qed.

Lemma update_path_keeps_catalog_aligned_witness :
  exists paths files data,
    fst (update_path Sample.listdir Sample.isfile Sample.decode new_object
           (PathStr "photos"))
    = mkCollager (Some paths) (Some files) (Some data)
    /\ map path data = files.
Proof.
  destruct (update_path_keeps_catalog_aligned Sample.listdir Sample.isfile
              Sample.decode new_object (PathStr "photos")
              (fst (update_path Sample.listdir Sample.isfile Sample.decode
                      new_object (PathStr "photos"))))
    as (paths & files & data & E & Hp & _); [reflexivity|].
  exists paths, files, data. split; assumption.
Defined.

(** X16. When [update_path] raises, [image_data] is left as it was: the
    object keeps its old catalog.  For a [str] or a [list] argument
    [image_path] has already been replaced by then; for any other argument
    the object is untouched. *)
Theorem failed_update_keeps_old_catalog listdir isfile decode self path self' e :
  update_path listdir isfile decode self path = (self', Raise e) ->
  image_data self' = image_data self
  /\ match path with
     | PathStr s => image_path self' = Some [ItemStr s]
     | PathList l => image_path self' = Some l
     | PathOther _ => self' = self
     end.
Proof.
  intro H. destruct path as [s|l|o]; cbn [update_path] in H.
  - destruct (get_files listdir isfile s file_extensions) as [files| |];
      try (injection H as _ H; discriminate).
    injection H as <- _. split; reflexivity.
  - destruct (extend_files listdir isfile
                (set_image_files (set_image_path self l) []) [] l)
      as [self1 [all| |]] eqn:E; try (injection H as _ H; discriminate).
    injection H as <- _. apply extend_files_keeps in E.
    destruct E as [E1 E2]. rewrite E1, E2. split; reflexivity.
  - injection H as <- _. split; reflexivity.
Qed.

Lemma failed_update_keeps_old_catalog_witness :
  image_data
    (fst (update_path Sample.listdir Sample.isfile Sample.decode
            (mkCollager (Some [ItemStr "old"]) (Some []) (Some Sample.squares))
            (PathList [ItemStr "photos"; ItemStr "nowhere"])))
  = Some Sample.squares.
Proof.
  apply (failed_update_keeps_old_catalog Sample.listdir Sample.isfile
           Sample.decode
           (mkCollager (Some [ItemStr "old"]) (Some []) (Some Sample.squares))
           (PathList [ItemStr "photos"; ItemStr "nowhere"]) _ OSError).
  reflexivity.
Defined.

(** ** [get_files], continued *)

Lemma rfind_from_spec (c : ascii) :
  forall s i last,
    OsPath.rfind_from s c i last = last
    \/ (i <= OsPath.rfind_from s c i last
        /\ String.get (Z.to_nat (OsPath.rfind_from s c i last - i)) s = Some c).
Proof.
  induction s as [|a s IH]; intros i last; cbn [OsPath.rfind_from].
  - now left.
  - destruct (IH (i + 1) (if Ascii.eqb a c then i else last)) as [E|[Hle Hget]].
    + rewrite E. destruct (Ascii.eqb a c) eqn:Ea; [|now left].
      right. apply Ascii.eqb_eq in Ea. subst a.
      rewrite Z.sub_diag. split; [lia|reflexivity].
    + right. split; [lia|].
      set (r := OsPath.rfind_from s c (i + 1) _) in *.
      replace (Z.to_nat (r - i)) with (S (Z.to_nat (r - (i + 1)))) by lia.
      exact Hget.
Qed.

Lemma rfind_spec (s : string) (c : ascii) :
  OsPath.rfind s c = -1
  \/ (0 <= OsPath.rfind s c
      /\ String.get (Z.to_nat (OsPath.rfind s c)) s = Some c).
Proof.
  unfold OsPath.rfind.
  destruct (rfind_from_spec c s 0 (-1)) as [E|[Hle Hget]]; [now left|].
  right. rewrite Z.sub_0_r in Hget. now split.
Qed.

Lemma append_empty_r (s : string) : (s ++ "")%string = s.
Proof.
  induction s as [|a s IH]; cbn; [reflexivity|now rewrite IH].
Qed.

Lemma substring_all (s : string) : String.substring 0 (String.length s) s = s.
Proof.
  induction s as [|a s IH]; cbn; [reflexivity|now rewrite IH].
Qed.

Lemma substring_split :
  forall s n,
    (String.substring 0 n s
     ++ String.substring n (String.length s - n) s)%string = s.
Proof.
  induction s as [|a s IH]; intros [|n]; cbn [String.substring String.length
                                               String.append Nat.sub];
    try reflexivity.
  - cbn. now rewrite substring_all.
  - now rewrite IH.
Qed.

Lemma substring_from_get :
  forall s n c,
    String.get n s = Some c ->
    String.substring n (String.length s - n) s
    = String c (String.substring (S n) (String.length s - S n) s).
Proof.
  induction s as [|a s IH]; intros [|n] c H; cbn [String.get] in H;
    try discriminate.
  - injection H as <-. cbn [String.length Nat.sub String.substring].
    now rewrite Nat.sub_0_r.
  - cbn [String.length Nat.sub String.substring]. now apply IH.
Qed.

Lemma slice_after_first (c : ascii) (t : string) :
  OsPath.slice_from (String c t) 1 = t.
Proof.
  unfold OsPath.slice_from. change (Z.to_nat 1) with 1%nat.
  cbn [String.length Nat.sub String.substring].
  rewrite Nat.sub_0_r. apply substring_all.
Qed.

(** [splitext] cuts its argument in two, and the second part is empty or
    starts with a dot. *)
Lemma splitext_spec (p : string) :
  (fst (OsPath.splitext p) ++ snd (OsPath.splitext p))%string = p
  /\ (snd (OsPath.splitext p) = ""%string
      \/ exists t, snd (OsPath.splitext p) = String "."%char t).
Proof.
  unfold OsPath.splitext.
  destruct (rfind_spec p "."%char) as [E|[Hle Hget]].
  - rewrite E.
    assert (Hsep : -1 <= OsPath.rfind p "/"%char)
      by (destruct (rfind_spec p "/"%char) as [E'|[Hle' _]]; lia).
    replace (-1 >? OsPath.rfind p "/"%char) with false
      by (symmetry; rewrite Z.gtb_ltb; apply Z.ltb_ge; lia).
    cbn [andb fst snd]. split; [apply append_empty_r|now left].
  - destruct ((OsPath.rfind p "."%char >? OsPath.rfind p "/"%char)
              && OsPath.skip_dots _ p _); cbn [fst snd].
    + unfold OsPath.slice_to, OsPath.slice_from.
      split; [apply substring_split|]. right.
      rewrite (substring_from_get _ _ _ Hget). eexists. reflexivity.
    + split; [apply append_empty_r|now left].
Qed.

(** X17. Every path returned by [get_files] is a listed name joined to
    the directory, names a regular file, and, when the empty string is not
    among the extensions asked for, ends with a dot followed by one of
    them. *)
Theorem get_files_results listdir isfile (dir : string) ext files file :
  ~ In ""%string ext ->
  get_files listdir isfile dir ext = Ok files ->
  In file files ->
  isfile file = true
  /\ (exists names name,
        listdir dir = Some names /\ In name names
        /\ file = OsPath.join dir name)
  /\ exists root e, In e ext /\ file = (root ++ "." ++ e)%string.
Proof.
  intros Hext H Hin. unfold get_files, os_listdir in H.
  destruct (listdir dir) as [names|] eqn:Hls; [|discriminate].
  cbn [rbind] in H. injection H as <-.
  apply filter_In in Hin. destruct Hin as [Hmap Htest].
  apply andb_true_iff in Htest. destruct Htest as [Htest Hcont].
  apply andb_true_iff in Htest. destruct Htest as [Hfile _].
  apply in_map_iff in Hmap. destruct Hmap as (name & Hname & Hin).
  split; [exact Hfile|]. split; [exists names, name; auto|].
  unfold contains in Hcont. apply existsb_exists in Hcont.
  destruct Hcont as (e & He & Heq). apply String.eqb_eq in Heq.
  destruct (splitext_spec file) as [Hcut [Hnil|[t Ht]]].
  - rewrite Hnil in Heq. change (OsPath.slice_from "" 1) with ""%string in Heq.
    rewrite Heq in Hext. contradiction.
  - rewrite Ht, slice_after_first in Heq.
    exists (fst (OsPath.splitext file)), e. split; [exact He|].
    rewrite <- Hcut at 1. rewrite Ht, Heq. reflexivity.
Qed.

Lemma get_files_results_witness :
  exists root e,
    In e file_extensions /\ "photos/a.jpg"%string = (root ++ "." ++ e)%string.
Proof.
  apply (get_files_results Sample.listdir Sample.isfile "photos"
           file_extensions ["photos/.hidden.jpg"; "photos/a.jpg"]%string
           "photos/a.jpg").
  - cbn. intuition discriminate.
  - reflexivity.
  - right. left. reflexivity.
Defined.

Lemma join_keeps_leading_dot (dir name : string) :
  OsPath.startswith dir "." = true ->
  OsPath.startswith name "/" = false ->
  OsPath.startswith (OsPath.join dir name) "." = true.
Proof.
  intros Hdir Hname. unfold OsPath.join. rewrite Hname.
  destruct dir as [|a dir]; [discriminate|].
  destruct (String.eqb (String a dir) "" || OsPath.endswith (String a dir) "/");
    unfold OsPath.startswith in *; cbn [String.append String.prefix] in *;
    (destruct (ascii_dec "." a); [|discriminate]);
    match goal with |- String.prefix "" ?s = true => now destruct s end.
Qed.

(** X18. When the directory path itself starts with a dot (as [.] or
    [./photos] do), [get_files] returns no file at all, whatever the
    directory holds: the test [startswith(".")] is made on the joined
    path. *)
Theorem get_files_dot_directory_finds_nothing
    (listdir : DirRef -> option (list string)) isfile dir ext names :
  OsPath.startswith dir "." = true ->
  listdir dir = Some names ->
  Forall (fun name => OsPath.startswith name "/" = false) names ->
  get_files listdir isfile dir ext = Ok [].
Proof.
  intros Hdir Hls Hnames. unfold get_files, os_listdir. rewrite Hls.
  cbn [rbind]. f_equal. clear Hls.
  induction Hnames as [|name names Hname _ IH]; [reflexivity|].
  cbn [map filter].
  rewrite (join_keeps_leading_dot dir name Hdir Hname).
  rewrite andb_false_r. cbn [andb]. exact IH.
Qed.

Lemma get_files_dot_directory_finds_nothing_witness :
  get_files Sample.listdir_here Sample.isfile "." file_extensions = Ok [].
Proof.
  apply (get_files_dot_directory_finds_nothing Sample.listdir_here
           Sample.isfile "." file_extensions [".hidden.jpg"; "a.jpg"]%string).
  - reflexivity.
  - reflexivity.
  - repeat constructor.
Defined.

(** ** [collage], continued *)

(** X19. [collage] does not check [lines]: for a positive [width] and
    [height], with [lines = 0] it raises [ZeroDivisionError] at the floor
    division, and with a negative [lines] it returns a blank image resized
    to [(width, height)], without building a line or drawing from the
    catalog. *)
Theorem collage_without_lines
    rand decode fuel image_data width height lines ratio_delta scale_method k :
  0 < width -> 0 < height -> lines <= 0 ->
  collage rand decode fuel image_data width height lines ratio_delta
    scale_method k
  = if lines =? 0 then Raise ZeroDivisionError
    else Ok (Resize (New "RGBA" (width, height / lines * lines))
               (width, height) scale_method, k).
Proof.
  intros Hw Hh Hl. unfold collage, bind, lift, Py.floordiv, Py.range.
  destruct (lines =? 0) eqn:E; [reflexivity|].
  replace (Z.to_nat lines) with 0%nat by lia. cbn [seq map collage_lines ret].
  rewrite resize_ok by (cbn [fst snd]; lia). reflexivity.
Qed.

Lemma collage_without_lines_witness :
  collage Sample.draws Sample.decode 10 Sample.squares 200 205 (-2)
    Sample.tolerance LANCZOS 0%nat
  = Ok (Resize (New "RGBA" (200, 206)) (200, 205) LANCZOS, 0%nat).
Proof.
  apply (collage_without_lines Sample.draws Sample.decode 10 Sample.squares
           200 205 (-2) Sample.tolerance LANCZOS 0%nat); lia.
Defined.

(** X20. With at least one line, whenever [collage] returns, the stack it
    resized is not taller than [height] and falls short of it by fewer
    than [lines] pixels: the final resize only absorbs the remainder of
    the floor division. *)
Theorem collage_stack_shortfall
    rand decode fuel image_data width height lines ratio_delta scale_method
    k img k' :
  1 <= lines ->
  collage rand decode fuel image_data width height lines ratio_delta
    scale_method k = Ok (img, k') ->
  exists stacked,
    img = Resize stacked (width, height) scale_method
    /\ img_width stacked = width
    /\ 0 <= height - img_height stacked < lines
    /\ height - img_height stacked = height mod lines.
Proof.
  intros Hl H. unfold collage, bind, lift, ret, Py.floordiv in H.
  destruct (lines =? 0) eqn:E0; [discriminate|].
  destruct (collage_lines rand decode fuel image_data width (height / lines)
              ratio_delta scale_method (Py.range lines)
              (New "RGBA" (width, height / lines * lines)) k)
    as [[stacked k1]| |] eqn:E; try discriminate.
  destruct (resize stacked (width, height) scale_method) as [out| |] eqn:Er;
    try discriminate.
  apply resize_inv in Er. destruct Er as (-> & _ & _).
  injection H as <- <-.
  apply collage_lines_inv in E. destruct E as (_ & Hs & _).
  cbn [img_size] in Hs.
  exists stacked. split; [reflexivity|].
  unfold img_width, img_height. rewrite Hs. cbn [fst snd].
  split; [reflexivity|].
  pose proof (Z.mod_pos_bound height lines ltac:(lia)) as Hm.
  pose proof (Z.div_mod height lines ltac:(lia)) as Hd.
  split; lia.
Qed.

Lemma collage_stack_shortfall_witness :
  exists img k',
    collage Sample.draws Sample.decode 10 Sample.squares 200 205 2
      Sample.tolerance LANCZOS 0%nat = Ok (img, k')
    /\ exists stacked,
         img = Resize stacked (200, 205) LANCZOS
         /\ img_width stacked = 200
         /\ 0 <= 205 - img_height stacked < 2
         /\ 205 - img_height stacked = 205 mod 2.
Proof.
  destruct (collage Sample.draws Sample.decode 10 Sample.squares 200 205 2
              Sample.tolerance LANCZOS 0%nat) as [[img k']| |] eqn:E;
    try (vm_compute in E; discriminate).
  exists img, k'. split; [reflexivity|].
  apply (collage_stack_shortfall Sample.draws Sample.decode 10 Sample.squares
           200 205 2 Sample.tolerance LANCZOS 0%nat img k'); [lia|exact E].
Defined.

Lemma create_line_empty_catalog
    rand decode fuel width line_height ratio_delta scale_method k :
  0 < width -> 0 < line_height ->
  (0 <= ratio_delta)%Q -> (ratio_delta < 1)%Q ->
  create_line rand decode (S (S fuel)) [] width line_height ratio_delta
    scale_method k = Raise IndexError.
Proof.
  intros Hw Hh Ht0 Ht1.
  destruct (bounds_ok width line_height ratio_delta Hw Hh Ht0 Ht1)
    as (Hb & _ & Hpos & _).
  unfold create_line, select_ratios, bind, lift. rewrite Hb.
  cbn [min_ratio max_ratio select is_empty fill]. unfold bind.
  match goal with
  | |- context [Py.lt (sum_ratios []) ?m] =>
      assert (E0 : Py.lt (sum_ratios []) m = true)
        by (apply lt_true; exact Hpos)
  end.
  rewrite E0. reflexivity.
Qed.

(** X21. A [Collager] built from an empty list of paths is created
    without error and holds an empty catalog; with valid parameters every
    [collage] call on that catalog then ends in the [IndexError] of
    [random.choice], on its first line. *)
Theorem empty_collager_cannot_collage
    listdir isfile rand decode fuel width height lines ratio_delta
    scale_method k :
  0 < width -> 1 <= lines <= height ->
  (0 <= ratio_delta)%Q -> (ratio_delta < 1)%Q ->
  exists self,
    init listdir isfile decode (PathList []) = Ok self
    /\ image_data self = Some []
    /\ collage rand decode (S (S fuel)) [] width height lines ratio_delta
         scale_method k = Raise IndexError.
Proof.
  intros Hw Hl Ht0 Ht1.
  exists (mkCollager (Some []) (Some []) (Some [])).
  split; [reflexivity|]. split; [reflexivity|].
  assert (Hlh : 0 < height / lines) by (apply Z.div_str_pos; lia).
  unfold collage, bind, Py.floordiv.
  destruct (lines =? 0) eqn:E0; [lia|]. cbn [lift]. unfold Py.range.
  destruct (Z.to_nat lines) as [|n] eqn:En; [lia|].
  cbn [seq map collage_lines]. unfold bind.
  rewrite create_line_empty_catalog by assumption. reflexivity.
Qed.

Lemma empty_collager_cannot_collage_witness :
  exists self,
    init Sample.listdir Sample.isfile Sample.decode (PathList []) = Ok self
    /\ image_data self = Some []
    /\ collage Sample.draws Sample.decode 2 [] 200 205 2 Sample.tolerance
         LANCZOS 0%nat = Raise IndexError.
Proof.
  apply (empty_collager_cannot_collage Sample.listdir Sample.isfile
           Sample.draws Sample.decode 0 200 205 2 Sample.tolerance LANCZOS
           0%nat); try lia; try discriminate; reflexivity.
Defined.

(** ** An image that needs no cropping *)

(** X22. An image of positive size whose own ratio is the target ratio is
    not cropped by [center_crop]: the box is the whole image, and the
    image is only resized. *)
Theorem center_crop_keeps_matching_image
    img height crop_ratio scale_method out :
  0 < img_width img -> 0 < img_height img ->
  (inject_Z (img_width img) / inject_Z (img_height img) == crop_ratio)%Q ->
  center_crop img height crop_ratio scale_method = Ok out ->
  out = Resize (Crop img (0, 0, img_width img, img_height img))
          (Py.round (inject_Z height * crop_ratio), height) scale_method.
Proof.
  intros HW HH Hr Hout.
  pose proof (inject_Z_pos _ HW) as HW'. pose proof (inject_Z_pos _ HH) as HH'.
  assert (Hpos : (0 < crop_ratio)%Q) by (rewrite <- Hr; now apply div_pos).
  unfold center_crop in Hout. rewrite truediv_ok in Hout by lra.
  cbn [rbind] in Hout.
  assert (E : Py.lt crop_ratio
                (inject_Z (img_width img) / inject_Z (img_height img)) = false)
    by (apply lt_false; rewrite Hr; apply Qle_refl).
  rewrite E, truediv_ok in Hout by lra. cbn [rbind] in Hout.
  assert (E0 : ((inject_Z (img_height img)
                 - inject_Z (img_width img) / crop_ratio) / 2 == 0)%Q).
  { rewrite <- Hr. field. split; lra. }
  rewrite (round_proper _ _ E0) in Hout. change (Py.round 0) with 0 in Hout.
  rewrite Z.sub_0_r in Hout. apply resize_inv in Hout. tauto.
Qed.

Lemma center_crop_keeps_matching_image_witness :
  Resize (Crop (Open "a.jpg" (30, 20)) (0, 0, 30, 20)) (150, 100) LANCZOS
  = Resize (Crop (Open "a.jpg" (30, 20)) (0, 0, 30, 20))
      (Py.round (inject_Z 100 * (3 # 2)), 100) LANCZOS.
Proof.
  apply (center_crop_keeps_matching_image (Open "a.jpg" (30, 20)) 100 (3 # 2)
           LANCZOS); reflexivity.
Defined.
